(** * OverlayBuffScanner: a shallow embedding of [main.py]

    The program samples a screen rectangle, scores it against a list of icon
    templates and shows the icons it found on an overlay window.  This file
    embeds its configuration handling, the region picker, the hotkey handlers,
    one pass of the overlay loop and the monitor loop, and proves properties
    of them.

    Conventions.
    - Python dictionaries with a fixed schema ([cfg], the entries of
      [cfg["buffs"]]) are records; a key that the code sets only at run time,
      or reads with [.get], is an [option] field ([None] = key absent).
    - [self.overlay_labels], a dictionary keyed by template name that grows
      and shrinks, is a [gmap string Label].
    - Python [float]s that are only compared ([max_val >= threshold]) or
      stored ([time.time()]) are rationals.
    - Code that raises returns the exception next to the state it had reached,
      because the mutations made before the exception stay visible.
    - [cv2], [json], [dxcam] and Tk are outside the repository; what the code
      needs from them is a [Variable] of the section that uses it. *)

From Stdlib Require Import QArith.
From stdpp Require Import base numbers option list sorting strings gmap.

(** ** Values *)

Inductive exn :=
  | KeyError (key : string)
  | ValueError
  | TypeError
  | cv2_error
  | JSONDecodeError.

(** A colour image: rows of pixels, three channels each. *)
Definition pixel : Type := Z * Z * Z.
Definition ndarray : Type := list (list pixel).

(** [img.shape[:2]]: rows, then columns. *)
Definition shape (img : ndarray) : Z * Z :=
  (Z.of_nat (length img), Z.of_nat (length (hd [] img))).

Definition height (img : ndarray) : Z := fst (shape img).
Definition width (img : ndarray) : Z := snd (shape img).

(** [l[i:j]] with Python's treatment of negative and out-of-range bounds. *)
Definition slice_bound (n k : Z) : Z :=
  if (k <? 0)%Z then Z.max 0 (k + n) else Z.min k n.

Definition py_slice {A} (i j : Z) (l : list A) : list A :=
  let n := Z.of_nat (length l) in
  let i' := slice_bound n i in
  let j' := slice_bound n j in
  take (Z.to_nat (j' - i')) (drop (Z.to_nat i') l).

(** [frame[y:y + t_h, x:x + t_w]] *)
Definition crop (frame : ndarray) (x y t_w t_h : Z) : ndarray :=
  py_slice x (x + t_w) <$> py_slice y (y + t_h) frame.

(** ** Configuration *)

(** An entry of [cfg["buffs"]].  The first four keys come from the settings
    file; the others are added by [load_templates] and the monitor loop. *)
Record Buff := mkBuff {
  name : string;
  file : string;
  refreshable : bool;
  duration : option Q;
  template : option (option ndarray);
  t_h : option Z;
  t_w : option Z;
  active : option bool;
  icon_data : option (option ndarray);
  last_seen : option Q;
}.

Definition set_template (v : option ndarray) (b : Buff) : Buff :=
  mkBuff (name b) (file b) (refreshable b) (duration b)
         (Some v) (t_h b) (t_w b) (active b) (icon_data b) (last_seen b).
Definition set_t_h (v : Z) (b : Buff) : Buff :=
  mkBuff (name b) (file b) (refreshable b) (duration b)
         (template b) (Some v) (t_w b) (active b) (icon_data b) (last_seen b).
Definition set_t_w (v : Z) (b : Buff) : Buff :=
  mkBuff (name b) (file b) (refreshable b) (duration b)
         (template b) (t_h b) (Some v) (active b) (icon_data b) (last_seen b).
Definition set_active (v : bool) (b : Buff) : Buff :=
  mkBuff (name b) (file b) (refreshable b) (duration b)
         (template b) (t_h b) (t_w b) (Some v) (icon_data b) (last_seen b).
Definition set_icon_data (v : option ndarray) (b : Buff) : Buff :=
  mkBuff (name b) (file b) (refreshable b) (duration b)
         (template b) (t_h b) (t_w b) (active b) (Some v) (last_seen b).
Definition set_last_seen (v : Q) (b : Buff) : Buff :=
  mkBuff (name b) (file b) (refreshable b) (duration b)
         (template b) (t_h b) (t_w b) (active b) (icon_data b) (Some v).

Record Config := mkConfig {
  search_region : option (list Z);
  overlay_pos : option (list Z);
  threshold : option Q;
  hotkeys : gmap string string;
  buffs : option (list Buff);
}.

Definition set_search_region (v : list Z) (c : Config) : Config :=
  mkConfig (Some v) (overlay_pos c) (threshold c) (hotkeys c) (buffs c).
Definition set_buffs (v : list Buff) (c : Config) : Config :=
  mkConfig (search_region c) (overlay_pos c) (threshold c) (hotkeys c) (Some v).

Definition DEFAULT_CONFIG : Config := {|
  search_region := Some [300; 1000; 1100; 1050]%Z;
  overlay_pos := Some [100; 100]%Z;
  threshold := Some 0.82%Q;
  hotkeys := <["toggle" := "F8"]> (<["select_region" := "shift+f9"]>
               (<["quit" := "F10"]> ∅));
  buffs := Some [];
|}.

(** [cfg.get("buffs", [])] *)
Definition get_buffs (c : Config) : list Buff := default [] (buffs c).

(** The loops [for b in self.cfg.get("buffs", []): ...] mutate the entries in
    place; when the key is absent they run over a fresh empty list and the
    configuration keeps lacking the key. *)
Definition put_buffs (bs : list Buff) (c : Config) : Config :=
  match buffs c with
  | Some _ => set_buffs bs c
  | None => c
  end.

(** ** The monitor loop: one template against one frame *)

Section Matcher.

(** [cv2.matchTemplate(frame, tmpl, cv2.TM_CCOEFF_NORMED)] followed by
    [cv2.minMaxLoc]: the best score and its location [(x, y)], or [None]
    when OpenCV raises. *)
Variable cv2_match : ndarray → ndarray → option (Q * (Z * Z)).

(** What one pass over a template leaves behind: the entry, the calls made
    to the scorer, and the exception if one was raised. *)
Record Scan := mkScan {
  scan_buff : Buff;
  scan_calls : list (ndarray * ndarray);
  scan_raised : option exn;
}.

Definition deactivate (b : Buff) : Buff :=
  set_icon_data None (set_active false b).

(** The body of [for b in self.cfg.get("buffs", [])] in [monitor_loop]. *)
Definition scan_one (frame : ndarray) (thr now : Q) (b : Buff) : Scan :=
  match template b with
  | None | Some None => mkScan (deactivate b) [] None
  | Some (Some tmpl) =>
      match cv2_match frame tmpl with
      | None => mkScan b [(frame, tmpl)] (Some cv2_error)
      | Some (max_val, (x, y)) =>
          if Qle_bool thr max_val then
            match t_h b, t_w b with
            | None, _ => mkScan b [(frame, tmpl)] (Some (KeyError "t_h"))
            | Some _, None => mkScan b [(frame, tmpl)] (Some (KeyError "t_w"))
            | Some h, Some w =>
                let b1 := set_icon_data (Some (crop frame x y w h)) b in
                let b2 := set_active true b1 in
                let b3 := set_last_seen now b2 in
                mkScan b3 [(frame, tmpl)] None
            end
          else mkScan (deactivate b) [(frame, tmpl)] None
      end
  end.

(** The whole [for] loop: entries after a raising one are not reached. *)
Fixpoint scan_all (frame : ndarray) (thr now : Q) (bs : list Buff)
  : list Buff * list (ndarray * ndarray) * option exn :=
  match bs with
  | [] => ([], [], None)
  | b :: rest =>
      let s := scan_one frame thr now b in
      match scan_raised s with
      | Some e => (scan_buff s :: rest, scan_calls s, Some e)
      | None =>
          let '(rest', calls, e) := scan_all frame thr now rest in
          (scan_buff s :: rest', scan_calls s ++ calls, e)
      end
  end.

End Matcher.

(** ** Settings file and template images *)

Inductive outcome (A : Type) :=
  | Ok (a : A)
  | Raise (e : exn).
Arguments Ok {A} a.
Arguments Raise {A} e.

(** A path under [TEMPLATES_DIR] as [glob] yields it: [p.stem] and
    [str(p.relative_to(APP_DIR))]. *)
Record Path := mkPath {
  stem : string;
  relative : string;
}.

(** What the program can see of the file system.
    - [config_json]: the text of [config.json], [None] when it does not exist;
    - [templates_png]: [sorted(TEMPLATES_DIR.glob("*.png"))], [None] when the
      directory does not exist;
    - [image_files]: for a path relative to [APP_DIR], absent when no such
      file exists, otherwise what [cv2.imread] returns for it. *)
Record Disk := mkDisk {
  config_json : option string;
  templates_png : option (list Path);
  image_files : gmap string (option ndarray);
}.

Definition write_config (text : string) (d : Disk) : Disk :=
  mkDisk (Some text) (templates_png d) (image_files d).

(** What [json.dump(cfg, f, ...)] does to the freshly truncated file [f]:
    it writes the whole document, or raises after a prefix of it. *)
Inductive dumped :=
  | Dumped (text : string)
  | DumpRaised (partial : string) (e : exn).

Section Settings.

(** [json.load]: [None] when the text does not decode. *)
Variable json_load : string → option Config.
Variable json_dump : Config → dumped.

Definition save_config (c : Config) (d : Disk) : Disk * option exn :=
  match json_dump c with
  | Dumped text => (write_config text d, None)
  | DumpRaised partial e => (write_config partial d, Some e)
  end.

Definition discovered (p : Path) : Buff :=
  mkBuff (stem p) (relative p) true None None None None None None None.

Definition load_config (d : Disk) : Disk * outcome Config :=
  match config_json d with
  | Some text =>
      match json_load text with
      | Some c => (d, Ok c)
      | None => (d, Raise JSONDecodeError)
      end
  | None =>
      let buffs :=
        match templates_png d with
        | Some paths => discovered <$> paths
        | None => []
        end in
      let c := set_buffs buffs DEFAULT_CONFIG in
      match save_config c d with
      | (d', None) => (d', Ok c)
      | (d', Some e) => (d', Raise e)
      end
  end.

End Settings.

(** The body of the loop of [load_templates]. *)
Definition load_template (d : Disk) (b : Buff) : Buff :=
  match image_files d !! file b with
  | None => set_template None b
  | Some None => set_template None b
  | Some (Some img) =>
      let b := set_template (Some img) b in
      let b := set_t_w (width img) (set_t_h (height img) b) in
      let b := set_active false b in
      let b := set_icon_data None b in
      set_last_seen 0 b
  end.

Definition load_templates (d : Disk) (c : Config) : Config :=
  put_buffs (load_template d <$> get_buffs c) c.

(** ** Region picker *)

Inductive gui_event :=
  | ButtonPress (x_root y_root : Z)
  | Motion (x_root y_root : Z)
  | ButtonRelease (x_root y_root : Z)
  | Escape.

(** The variables the handlers of [pick_region_via_drag] close over;
    [rect_id] is the rectangle currently drawn on the canvas. *)
Record Picker := mkPicker {
  result_rect : option (list Z);
  start : Z * Z;
  rect_id : option (Z * Z * Z * Z);
}.

Definition sorted (l : list Z) : list Z := merge_sort Z.le l.

Definition on_button_press (x_root y_root : Z) (p : Picker) : Picker :=
  mkPicker (result_rect p) (x_root, y_root) (rect_id p).

Definition on_move (x_root y_root : Z) (p : Picker) : Picker :=
  let '(x0, y0) := start p in
  mkPicker (result_rect p) (start p) (Some (x0, y0, x_root, y_root)).

Definition on_button_release (x_root y_root : Z) (p : Picker) : Picker :=
  let '(x0, y0) := start p in
  match sorted [x0; x_root], sorted [y0; y_root] with
  | [left_; right_], [top; bottom] =>
      mkPicker (Some [left_; top; right_; bottom]) (start p) (rect_id p)
  | _, _ => p
  end.

Definition on_esc (p : Picker) : Picker := p.

(** [sel_root.mainloop()]: events are dispatched until a handler destroys the
    window; [None] while the window is still open. *)
Fixpoint mainloop (events : list gui_event) (p : Picker) : option Picker :=
  match events with
  | [] => None
  | ButtonPress x y :: events => mainloop events (on_button_press x y p)
  | Motion x y :: events => mainloop events (on_move x y p)
  | ButtonRelease x y :: _ => Some (on_button_release x y p)
  | Escape :: _ => Some (on_esc p)
  end.

(** The outer [option] is [None] when the gesture never closes the window. *)
Definition pick_region_via_drag (events : list gui_event)
  : option (option (list Z)) :=
  result_rect <$> mainloop events (mkPicker None (0, 0)%Z None).

(** ** The application object *)

(** A label placed on the overlay window: its image and where it was put. *)
Record Label := mkLabel {
  image : ndarray;
  place_x : Z;
  place_y : Z;
}.

(** The fields of [BuffMonitorApp] that the loops and the handlers use. *)
Record App := mkApp {
  cfg : Config;
  running : bool;
  stop_event : bool;
  overlay_labels : gmap string Label;
}.

Definition set_cfg (c : Config) (a : App) : App :=
  mkApp c (running a) (stop_event a) (overlay_labels a).
Definition set_overlay_labels (m : gmap string Label) (a : App) : App :=
  mkApp (cfg a) (running a) (stop_event a) m.

(** *** [toggle_running] *)

(** The [else] branch: pause and clear the active states. *)
Definition pause (a : App) : App :=
  mkApp (put_buffs (deactivate <$> get_buffs (cfg a)) (cfg a))
        false true (overlay_labels a).

(** The flag tells whether a monitor thread is started. *)
Definition toggle_running (a : App) : App * bool :=
  if negb (running a) then
    (mkApp (cfg a) true false (overlay_labels a), true)
  else
    (pause a, false).

(** *** [on_select_region] *)

Section Select.

Variable json_dump : Config → dumped.

(** [if rect:] is true for a non-empty list. *)
Definition truthy_rect (rect : option (list Z)) : bool :=
  match rect with
  | Some (_ :: _) => true
  | _ => false
  end.

(** [rect] is what [pick_region_via_drag] returned. *)
Definition select_region (rect : option (list Z)) (a : App) (d : Disk)
  : App * Disk * option exn :=
  match rect with
  | Some r =>
      if truthy_rect rect then
        let a' := set_cfg (set_search_region r (cfg a)) a in
        let '(d', e) := save_config json_dump (cfg a') d in
        (a', d', e)
      else (a, d, None)
  | None => (a, d, None)
  end.

(** [None] while the picker window is still open. *)
Definition on_select_region (events : list gui_event) (a : App) (d : Disk)
  : option (App * Disk * option exn) :=
  rect ← pick_region_via_drag events;
  Some (select_region rect a d).

End Select.

(** *** One pass of [overlay_loop] *)

Definition swap_channels (p : pixel) : pixel :=
  let '(c0, c1, c2) := p in (c2, c1, c0).

(** [cv2.cvtColor(icon, cv2.COLOR_BGR2RGB)], which rejects an empty array. *)
Definition cvtColor_BGR2RGB (img : ndarray) : outcome ndarray :=
  match img with
  | [] | [] :: _ => Raise cv2_error
  | _ => Ok (map (map swap_channels) img)
  end.

(** [b.get("active") and b.get("icon_data") is not None] *)
Definition visible (b : Buff) : bool :=
  match active b, icon_data b with
  | Some true, Some (Some _) => true
  | _, _ => false
  end.

Definition spacing : Z := 70.

(** The loop [for i, b in enumerate(self.cfg.get("buffs", []))], from index
    [i] on.  A label that is created and a label that is reconfigured end up
    with the same image at the same place. *)
Fixpoint place_labels (x0 y0 : Z) (i : nat) (bs : list Buff)
    (labels : gmap string Label) : gmap string Label * option exn :=
  match bs with
  | [] => (labels, None)
  | b :: rest =>
      match active b, icon_data b with
      | Some true, Some (Some icon) =>
          match cvtColor_BGR2RGB icon with
          | Raise e => (labels, Some e)
          | Ok tk_img =>
              let lbl := mkLabel tk_img (x0 + Z.of_nat i * spacing) y0 in
              place_labels x0 y0 (S i) rest (<[name b := lbl]> labels)
          end
      | _, _ => place_labels x0 y0 (S i) rest labels
      end
  end.

(** The body of [while not self.stop_event.is_set()], with a live window. *)
Definition overlay_pass (a : App) : App * option exn :=
  let bs := get_buffs (cfg a) in
  let active := filter (λ b, visible b = true) bs in
  let kept :=
    filter (λ kv, kv.1 ∈ name <$> active) (overlay_labels a) in
  match default [100; 100]%Z (overlay_pos (cfg a)) with
  | [x0; y0] =>
      let '(labels, e) := place_labels x0 y0 0 bs kept in
      (set_overlay_labels labels a, e)
  | _ => (set_overlay_labels kept a, Some ValueError)
  end.

(** ** The monitor thread *)

(** The locals of [monitor_loop] that are set before its [while] loop. *)
Record Monitor := mkMonitor {
  region : Z * Z * Z * Z;
  thr : Q;
}.

(** Lines 276 to 280 of [monitor_loop]. *)
Definition monitor_enter (c : Config) : outcome Monitor :=
  match default [300; 1000; 1100; 1050]%Z (search_region c) with
  | [left_; top; right_; bottom] =>
      Ok (mkMonitor (left_, top, right_, bottom) (default 0.82%Q (threshold c)))
  | _ => Raise ValueError
  end.

Inductive thread :=
  | Looping (m : Monitor)
  | Exited
  | Crashed (e : exn).

(** What [self.camera.grab(region=...)] gives back. *)
Inductive grabbed :=
  | Frame (frame : ndarray)
  | NoFrame
  | GrabRaised (e : exn).

(** The thread that runs [overlay_loop]. *)
Inductive overlay_thread :=
  | Drawing
  | Returned
  | Died (e : exn).

(** The program with its environment: the application object, the file
    system, the overlay thread, the monitor threads started so far (in the
    order they were started), and two logs: the regions passed to
    [camera.grab], by thread, and the pairs passed to the scorer. *)
Record World := mkWorld {
  app : App;
  disk : Disk;
  overlay : overlay_thread;
  threads : list thread;
  captures : list (nat * (Z * Z * Z * Z));
  scored : list (ndarray * ndarray);
}.

Inductive event :=
  | HotkeyToggle
  | HotkeySelect (gesture : list gui_event)
  | MonitorIter (tid : nat) (g : grabbed) (now : Q)
  | OverlayIter.

(** The part of [BuffMonitorApp.__init__] that builds the state: the settings
    are loaded, then the templates; nothing is running yet.  The creation of
    the camera, the registration of the hotkeys (which looks up
    [cfg["hotkeys"]]) and [start_overlay] (which unpacks [overlay_pos]) are
    not part of it, so [Ok] here does not say that the constructor returns. *)
Definition startup (json_load : string → option Config)
    (json_dump : Config → dumped) (d : Disk) : outcome World :=
  match load_config json_load json_dump d with
  | (d', Ok c) =>
      Ok (mkWorld (mkApp (load_templates d' c) false false ∅) d'
                  Drawing [] [] [])
  | (_, Raise e) => Raise e
  end.

Section Run.

Variable cv2_match : ndarray → ndarray → option (Q * (Z * Z)).
Variable json_dump : Config → dumped.

(** One evaluation of the [while] condition of [monitor_loop] by thread [tid]
    and, if it holds, one run of the loop body.  The two are one event here;
    the code holds no lock, so a handler may in fact run between the test
    and the end of the body. *)
Definition monitor_iter (tid : nat) (m : Monitor) (g : grabbed) (now : Q)
    (w : World) : World :=
  if running (app w) && negb (stop_event (app w)) then
    let captures' := captures w ++ [(tid, region m)] in
    match g with
    | GrabRaised e =>
        mkWorld (app w) (disk w) (overlay w) (<[tid := Crashed e]> (threads w))
                captures' (scored w)
    | NoFrame =>
        mkWorld (app w) (disk w) (overlay w) (threads w) captures' (scored w)
    | Frame frame =>
        let '(bs, calls, e) :=
          scan_all cv2_match frame (thr m) now (get_buffs (cfg (app w))) in
        let a' := set_cfg (put_buffs bs (cfg (app w))) (app w) in
        let threads' :=
          match e with
          | Some e => <[tid := Crashed e]> (threads w)
          | None => threads w
          end in
        mkWorld a' (disk w) (overlay w) threads' captures' (scored w ++ calls)
    end
  else
    mkWorld (app w) (disk w) (overlay w) (<[tid := Exited]> (threads w))
            (captures w) (scored w).

Definition spawn_monitor (c : Config) : thread :=
  match monitor_enter c with
  | Ok m => Looping m
  | Raise e => Crashed e
  end.

Definition step (w : World) (ev : event) : World :=
  match ev with
  | HotkeyToggle =>
      let '(a', started) := toggle_running (app w) in
      let threads' :=
        if started then threads w ++ [spawn_monitor (cfg a')] else threads w in
      mkWorld a' (disk w) (overlay w) threads' (captures w) (scored w)
  | HotkeySelect gesture =>
      match on_select_region json_dump gesture (app w) (disk w) with
      | Some (a', d', _) =>
          mkWorld a' d' (overlay w) (threads w) (captures w) (scored w)
      | None => w
      end
  | MonitorIter tid g now =>
      match threads w !! tid with
      | Some (Looping m) => monitor_iter tid m g now w
      | _ => w
      end
  | OverlayIter =>
      match overlay w with
      | Drawing =>
          if stop_event (app w) then
            mkWorld (app w) (disk w) Returned (threads w)
                    (captures w) (scored w)
          else
            let '(a', e) := overlay_pass (app w) in
            let overlay' := if e is Some e then Died e else Drawing in
            mkWorld a' (disk w) overlay' (threads w) (captures w) (scored w)
      | _ => w
      end
  end.

Definition run (w : World) (evs : list event) : World :=
  foldl step w evs.

End Run.

(** ** Stand-ins for the libraries and sample data, used by the examples *)

(** A scorer that always reports the same maximum at the same place, and one
    that always raises. *)
Definition constant_match (max_val : Q) (max_loc : Z * Z)
  : ndarray → ndarray → option (Q * (Z * Z)) :=
  λ _ _, Some (max_val, max_loc).

Definition raising_match : ndarray → ndarray → option (Q * (Z * Z)) :=
  λ _ _, None.

(** A serializer that tells the default search region from any other one,
    and a decoder that knows the first of its texts only. *)
Definition dump_region (c : Config) : dumped :=
  match search_region c with
  | Some [300; 1000; 1100; 1050]%Z => Dumped "default region"
  | Some _ => Dumped "selected region"
  | None => Dumped "no region"
  end.

Definition decode_known (text : string) : option Config :=
  if decide (text = "default region") then Some DEFAULT_CONFIG else None.

(** A file system without templates whose settings file was cut short. *)
Definition corrupt_disk : Disk :=
  mkDisk (Some "{ search_region: [300, 10") None ∅.

Definition icon_shield : ndarray :=
  [[(1, 2, 3); (4, 5, 6)]; [(7, 8, 9); (10, 11, 12)]]%Z.

Definition frame_1x1 : ndarray := [[(0, 0, 0)]]%Z.

Definition frame_3x4 : ndarray :=
  [[(0, 0, 0); (0, 0, 0); (0, 0, 0); (0, 0, 0)];
   [(0, 0, 0); (1, 2, 3); (4, 5, 6); (0, 0, 0)];
   [(0, 0, 0); (7, 8, 9); (10, 11, 12); (0, 0, 0)]]%Z.

(** An entry whose image was loaded, one whose image is missing, and the
    first one as a cycle that found it leaves it. *)
Definition shield : Buff :=
  mkBuff "Shield" "templates/icon_shield.png" true None
         (Some (Some icon_shield)) (Some 2%Z) (Some 2%Z)
         (Some false) (Some None) (Some 0%Q).

Definition haste : Buff :=
  mkBuff "Haste" "templates/icon_haste.png" true None
         (Some None) None None None None None.

Definition shield_seen : Buff :=
  set_last_seen 17 (set_active true (set_icon_data (Some icon_shield) shield)).

Definition sample_disk : Disk :=
  mkDisk None
         (Some [mkPath "icon_haste" "templates/icon_haste.png";
                mkPath "icon_shield" "templates/icon_shield.png"])
         (<["templates/icon_shield.png" := Some icon_shield]> ∅).

Definition sample_app : App :=
  mkApp (set_buffs [haste; shield] DEFAULT_CONFIG) false false ∅.

(** The application while monitoring, after a cycle that found the shield. *)
Definition running_app : App :=
  mkApp (set_buffs [haste; shield_seen] DEFAULT_CONFIG) true false ∅.

Definition sample_world : World :=
  mkWorld sample_app sample_disk Drawing [] [] [].

(** A drag from [(x0, y0)] to [(x1, y1)] through the points [moves]. *)
Definition drag (x0 y0 : Z) (moves : list (Z * Z)) (x1 y1 : Z)
  : list gui_event :=
  ButtonPress x0 y0 :: (uncurry Motion <$> moves) ++ [ButtonRelease x1 y1].

(** ** Predicates used in the statements *)

(** A detection record that is inactive and holds no crop. *)
Definition cleared (b : Buff) : Prop :=
  active b = Some false ∧ icon_data b = Some None.

(** [b'] differs from [b] at most in [active] and [icon_data]. *)
Definition keeps_rest (b b' : Buff) : Prop :=
  name b' = name b ∧ file b' = file b ∧ refreshable b' = refreshable b ∧
  duration b' = duration b ∧ template b' = template b ∧
  t_h b' = t_h b ∧ t_w b' = t_w b ∧ last_seen b' = last_seen b.

(** The template does not fit into the frame. *)
Definition too_large (tmpl frame : ndarray) : Prop :=
  (width tmpl > width frame)%Z ∨ (height tmpl > height frame)%Z.

(** Thread [tid] exists, captures region [R] as long as it loops, and every
    capture request it has logged is for [R]. *)
Definition pinned (tid : nat) (R : Z * Z * Z * Z) (w : World) : Prop :=
  tid < length (threads w) ∧
  (∀ m, threads w !! tid = Some (Looping m) → region m = R) ∧
  (∀ c, c ∈ captures w → c.1 = tid → c.2 = R).

(** Only thread [tid] may be looping, it captures region [R], and the capture
    log is [old] followed by requests of [tid] for [R]. *)
Definition sole_looper (tid : nat) (R : Z * Z * Z * Z)
    (old : list (nat * (Z * Z * Z * Z))) (w : World) : Prop :=
  (∀ i m, threads w !! i = Some (Looping m) → i = tid ∧ region m = R) ∧
  ∃ new, captures w = old ++ new ∧ Forall (λ c, c = (tid, R)) new.

(** ** Predicates for the monitor cycle *)

(** What identifies an entry of the catalog: the declared keys, the image
    and the size recorded for it. *)
Definition declaration (b : Buff)
  : string * string * bool * option Q * option (option ndarray)
    * option Z * option Z :=
  (name b, file b, refreshable b, duration b, template b, t_h b, t_w b).

(** The size recorded for a loaded template is the size of its image. *)
Definition sized (b : Buff) : Prop :=
  ∀ img, template b = Some (Some img) →
         t_h b = Some (height img) ∧ t_w b = Some (width img).

(** A detection record as a completed pass leaves it: inactive without a
    crop, or active with one. *)
Definition settled (b : Buff) : Prop :=
  cleared b ∨ (active b = Some true ∧ ∃ icon, icon_data b = Some (Some icon)).

(** The images of the entries that have one, in the order of the catalog. *)
Definition loaded_images (bs : list Buff) : list ndarray :=
  omap (λ b, default None (template b)) bs.

(** All rows of the image have the same length. *)
Definition rectangular (img : ndarray) : Prop :=
  Forall (λ row, Z.of_nat (length row) = width img) img.

(** ** Predicates for the overlay pass *)

(** The label that the loop of [overlay_loop] over [bs], from index [i] on,
    leaves under the name [n] when it runs to its end: the one of the last
    visible entry with that name. *)
Fixpoint label_of (x0 y0 : Z) (i : nat) (bs : list Buff) (n : string)
  : option Label :=
  match bs with
  | [] => None
  | b :: rest =>
      match label_of x0 y0 (S i) rest n with
      | Some lbl => Some lbl
      | None =>
          match active b, icon_data b with
          | Some true, Some (Some icon) =>
              match cvtColor_BGR2RGB icon with
              | Ok tk_img =>
                  if decide (name b = n)
                  then Some (mkLabel tk_img (x0 + Z.of_nat i * spacing) y0)
                  else None
              | Raise _ => None
              end
          | _, _ => None
          end
      end
  end.

(** The crop of the entry, if it is visible, has rows and columns. *)
Definition drawable (b : Buff) : Prop :=
  visible b = true →
  ∀ icon, icon_data b = Some (Some icon) →
          (0 < height icon)%Z ∧ (0 < width icon)%Z.

(** ** The overlay window's extended style *)

Definition GWL_EXSTYLE : Z := -20.
Definition WS_EX_LAYERED : Z := 0x80000.
Definition WS_EX_TRANSPARENT : Z := 0x20.
Definition WS_EX_TOPMOST : Z := 0x0008.

(** [make_window_clickthrough] as a function of what [GetWindowLongW] returns
    for [GWL_EXSTYLE]: the value it passes to [SetWindowLongW]. *)
Definition make_window_clickthrough (exStyle : Z) : Z :=
  Z.lor (Z.lor (Z.lor exStyle WS_EX_LAYERED) WS_EX_TRANSPARENT) WS_EX_TOPMOST.

(** ** Predicates for the region picker *)

(** An event that leaves the picker window open. *)
Definition keeps_open (ev : gui_event) : Prop :=
  match ev with
  | ButtonPress _ _ | Motion _ _ => True
  | ButtonRelease _ _ | Escape => False
  end.

(** ** More stand-ins and sample data *)

(** A serializer that gives up at the first entry that holds an image. *)
Definition dump_plain (c : Config) : dumped :=
  if decide (loaded_images (get_buffs c) = [])
  then Dumped "settings"
  else DumpRaised "{ buffs: [" TypeError.

(** The application after a pause. *)
Definition paused_world : World :=
  mkWorld (pause running_app) sample_disk Drawing [Exited] [] [].

(** A configuration whose search region has three numbers. *)
Definition short_region_world : World :=
  mkWorld (mkApp (set_search_region [10; 20; 30]%Z DEFAULT_CONFIG)
                 false false ∅)
          sample_disk Drawing [] [] [].

(** The program after a start, one iteration, a region selection and a
    pause: idle, with the monitor thread of the first period not yet at its
    next loop test. *)
Definition stale_world : World :=
  run (constant_match 1 (1, 1)%Z) dump_region sample_world
      [HotkeyToggle; MonitorIter 0 NoFrame 5;
       HotkeySelect (drag 500 500 [] 100 100); HotkeyToggle].

(** A world in which one monitor thread loops. *)
Definition monitoring_world : World :=
  mkWorld (mkApp (set_buffs [haste; shield] DEFAULT_CONFIG) true false ∅)
          sample_disk Drawing
          [Looping (mkMonitor (300, 1000, 1100, 1050)%Z 0.82%Q)] [] [].

(** * Properties *)

(** ** Region picker *)

Lemma sorted_pair (a b : Z) : sorted [a; b] = [Z.min a b; Z.max a b].
Proof.
  unfold sorted, merge_sort; simpl.
  destruct (decide (a ≤ b)%Z); simpl; f_equal; [lia | f_equal; lia | lia | f_equal; lia].
Qed.

Lemma on_button_release_rect (x1 y1 : Z) (p : Picker) :
  result_rect (on_button_release x1 y1 p) =
    Some [Z.min (start p).1 x1; Z.min (start p).2 y1;
          Z.max (start p).1 x1; Z.max (start p).2 y1].
Proof.
  unfold on_button_release. destruct (start p) as [x0 y0]; simpl.
  by rewrite !sorted_pair.
Qed.

(** The window is closed by a release, which stores a rectangle, or by
    Escape, which stores nothing. *)
Lemma mainloop_closed (events : list gui_event) (p p' : Picker) :
  mainloop events p = Some p' →
  result_rect p' = result_rect p ∨
  ∃ x0 y0 x1 y1 : Z,
    result_rect p' =
      Some [Z.min x0 x1; Z.min y0 y1; Z.max x0 x1; Z.max y0 y1].
Proof.
  revert p. induction events as [|ev events IH]; intros p H; [done|].
  destruct ev as [x y|x y|x y|]; simpl in H.
  - apply IH in H as [H|H]; [left | right]; done.
  - apply IH in H as [H|H]; [left | right]; [|done].
    rewrite H. unfold on_move. by destruct (start p).
  - injection H as <-. right.
    exists (start p).1, (start p).2, x, y. apply on_button_release_rect.
  - injection H as <-. by left.
Qed.

Lemma pick_region_shape (events : list gui_event) (rect : list Z) :
  pick_region_via_drag events = Some (Some rect) →
  ∃ x0 y0 x1 y1 : Z,
    rect = [Z.min x0 x1; Z.min y0 y1; Z.max x0 x1; Z.max y0 y1].
Proof.
  unfold pick_region_via_drag. intros H.
  destruct (mainloop _ _) as [p'|] eqn:Hloop; [|done].
  simpl in H. injection H as H.
  apply mainloop_closed in Hloop as [Hloop|(x0 & y0 & x1 & y1 & Hloop)].
  - simpl in Hloop. congruence.
  - exists x0, y0, x1, y1. congruence.
Qed.

Lemma mainloop_motions (moves : list (Z * Z)) (rest : list gui_event)
    (p : Picker) :
  ∃ p', start p' = start p ∧ result_rect p' = result_rect p ∧
    mainloop ((uncurry Motion <$> moves) ++ rest) p = mainloop rest p'.
Proof.
  revert p. induction moves as [|[x y] moves IH]; intros p; simpl.
  - by exists p.
  - destruct (IH (on_move x y p)) as (p' & Hs & Hr & Heq).
    exists p'. split_and!; [| |exact Heq].
    + rewrite Hs. unfold on_move. by destruct (start p).
    + rewrite Hr. unfold on_move. by destruct (start p).
Qed.

Lemma pick_region_drag (x0 y0 : Z) (moves : list (Z * Z)) (x1 y1 : Z) :
  pick_region_via_drag (drag x0 y0 moves x1 y1) =
    Some (Some [Z.min x0 x1; Z.min y0 y1; Z.max x0 x1; Z.max y0 y1]).
Proof.
  unfold pick_region_via_drag, drag. cbn [mainloop].
  destruct (mainloop_motions moves [ButtonRelease x1 y1]
              (on_button_press x0 y0 (mkPicker None (0, 0)%Z None)))
    as (p' & Hs & _ & ->).
  cbn [mainloop fmap option_fmap option_map].
  rewrite on_button_release_rect, Hs. done.
Qed.

(** C5. For every pair of drag endpoints the region picker returns the
    componentwise minimum and maximum of the two points, the same region
    when the endpoints are swapped; dragging from (500,500) to (100,100) and
    from (100,100) to (500,500) both give [100, 100, 500, 500]. *)
Theorem region_normalization :
  (∀ (x0 y0 x1 y1 : Z) (moves : list (Z * Z)),
     pick_region_via_drag (drag x0 y0 moves x1 y1) =
       Some (Some [Z.min x0 x1; Z.min y0 y1; Z.max x0 x1; Z.max y0 y1])) ∧
  (∀ (x0 y0 x1 y1 : Z) (moves moves' : list (Z * Z)),
     pick_region_via_drag (drag x0 y0 moves x1 y1) =
     pick_region_via_drag (drag x1 y1 moves' x0 y0)) ∧
  pick_region_via_drag (drag 500 500 [] 100 100) =
    Some (Some [100; 100; 500; 500]%Z) ∧
  pick_region_via_drag (drag 100 100 [] 500 500) =
    Some (Some [100; 100; 500; 500]%Z).
Proof.
  split_and!.
  - intros. apply pick_region_drag.
  - intros. rewrite !pick_region_drag.
    by rewrite (Z.min_comm x1), (Z.min_comm y1), (Z.max_comm x1), (Z.max_comm y1).
  - reflexivity.
  - reflexivity.
Qed.

(** C6, as the code has it.  Every region the picker returns has
    [right >= left] and [bottom >= top]; for a drag the inequality between
    left and right (top and bottom) is strict exactly when the x (y)
    coordinates of the two endpoints differ. *)
Theorem region_weakly_ordered :
  (∀ (events : list gui_event) (rect : list Z),
     pick_region_via_drag events = Some (Some rect) →
     ∃ l t r b : Z, rect = [l; t; r; b] ∧ (l ≤ r)%Z ∧ (t ≤ b)%Z) ∧
  (∀ (x0 y0 x1 y1 : Z) (moves : list (Z * Z)),
     ∃ l t r b : Z,
       pick_region_via_drag (drag x0 y0 moves x1 y1) = Some (Some [l; t; r; b]) ∧
       ((l < r)%Z ↔ x0 ≠ x1) ∧ ((t < b)%Z ↔ y0 ≠ y1)).
Proof.
  split.
  - intros events rect (x0 & y0 & x1 & y1 & ->)%pick_region_shape.
    eexists _, _, _, _. split; [done|]. lia.
  - intros. eexists _, _, _, _. split; [apply pick_region_drag|]. lia.
Qed.

Lemma region_weakly_ordered_witness :
  pick_region_via_drag (drag 100 100 [] 100 200) =
    Some (Some [100; 100; 100; 200]%Z) ∧
  ∃ l t r b : Z, [100; 100; 100; 200]%Z = [l; t; r; b] ∧ (l ≤ r)%Z ∧ (t ≤ b)%Z.
Proof.
  split; [reflexivity|].
  apply (proj1 region_weakly_ordered (drag 100 100 [] 100 200)).
  reflexivity.
Defined.

(** C6 as stated fails: a press and a release with the same x coordinate
    give a region whose right edge is not to the right of its left edge. *)
Lemma region_validity_counterexample :
  pick_region_via_drag (drag 100 100 [] 100 200) =
    Some (Some [100; 100; 100; 200]%Z) ∧
  ¬ (∃ l t r b : Z,
       [100; 100; 100; 200]%Z = [l; t; r; b] ∧ (r > l)%Z ∧ (b > t)%Z).
Proof.
  split; [reflexivity|].
  intros (l & t & r & b & [= <- <- <- <-] & Hlr & _). lia.
Qed.

(** ** Hotkey handlers *)

Section Handlers.

Variable cv2_match : ndarray → ndarray → option (Q * (Z * Z)).
Variable json_dump : Config → dumped.

Lemma world_eta (w : World) :
  mkWorld (app w) (disk w) (overlay w) (threads w) (captures w) (scored w) = w.
Proof. by destruct w. Qed.

(** C7. When the gesture ends with Escape, [on_select_region] leaves the
    application object (so every field of the configuration) and the file
    system as they were, and so does the step of the whole program; when
    the handler changes either of them, the gesture ended with a release.
    After a release the search region of the configuration is the picked
    rectangle and nothing else in the application object has changed; the
    settings file, and no other file, is written: it holds the serialized
    new configuration when the serializer completes, and the prefix the
    serializer wrote, with its exception raised, when it does not. *)
Theorem cancel_leaves_config (events : list gui_event) (a : App) (d : Disk) :
  (pick_region_via_drag events = Some None →
     on_select_region json_dump events a d = Some (a, d, None) ∧
     ∀ w, app w = a → disk w = d →
          step cv2_match json_dump w (HotkeySelect events) = w) ∧
  (∀ a' d' e,
     on_select_region json_dump events a d = Some (a', d', e) →
     (a', d') ≠ (a, d) →
     ∃ rect,
       pick_region_via_drag events = Some (Some rect) ∧
       a' = set_cfg (set_search_region rect (cfg a)) a ∧
       (d', e) = save_config json_dump (cfg a') d) ∧
  (∀ rect,
     pick_region_via_drag events = Some (Some rect) →
     ∃ a' d' e,
       on_select_region json_dump events a d = Some (a', d', e) ∧
       search_region (cfg a') = Some rect ∧
       (overlay_pos (cfg a'), threshold (cfg a'), hotkeys (cfg a'),
        buffs (cfg a')) =
       (overlay_pos (cfg a), threshold (cfg a), hotkeys (cfg a),
        buffs (cfg a)) ∧
       (running a', stop_event a', overlay_labels a') =
       (running a, stop_event a, overlay_labels a) ∧
       templates_png d' = templates_png d ∧
       image_files d' = image_files d ∧
       match json_dump (cfg a') with
       | Dumped text => config_json d' = Some text ∧ e = None
       | DumpRaised partial ex => config_json d' = Some partial ∧ e = Some ex
       end).
Proof.
  split_and!.
  - intros Hpick. unfold step, on_select_region. rewrite Hpick; simpl.
    split; [done|]. intros w _ _. apply world_eta.
  - intros a' d' e Hsel Hne. unfold on_select_region in Hsel.
    destruct (pick_region_via_drag events) as [[rect|]|] eqn:Hpick;
      simpl in Hsel; [| |done].
    + exists rect. split; [done|].
      apply pick_region_shape in Hpick as (? & ? & ? & ? & ->).
      simpl in Hsel. destruct (save_config _ _ _) as [d1 e1] eqn:Hsave.
      injection Hsel as <- <- <-. split; [done|].
      cbn [cfg set_cfg]. by rewrite Hsave.
    + injection Hsel as <- <- <-. done.
  - intros rect Hpick. unfold on_select_region. rewrite Hpick.
    apply pick_region_shape in Hpick as (? & ? & ? & ? & ->). simpl.
    unfold save_config.
    destruct (json_dump (set_search_region _ (cfg a))) as [text|partial ex]
      eqn:Hdump;
      eexists _, _, _; (split; [reflexivity|]); simpl; rewrite Hdump; done.
Qed.

Lemma deactivate_idemp (b : Buff) : deactivate (deactivate b) = deactivate b.
Proof. done. Qed.

Lemma deactivate_cleared (b : Buff) : cleared (deactivate b).
Proof. done. Qed.

Lemma deactivate_keeps_rest (b : Buff) : keeps_rest b (deactivate b).
Proof. by repeat split. Qed.


Lemma get_put_buffs (f : Buff → Buff) (c : Config) :
  get_buffs (put_buffs (f <$> get_buffs c) c) = f <$> get_buffs c.
Proof. unfold get_buffs, put_buffs. by destruct c as [? ? ? ? []]. Qed.





End Handlers.

Lemma cancel_leaves_config_witness :
  (pick_region_via_drag [ButtonPress 10 10; Motion 40 50; Escape] = Some None ∧
   on_select_region dump_region [ButtonPress 10 10; Motion 40 50; Escape]
     sample_app sample_disk = Some (sample_app, sample_disk, None)) ∧
  pick_region_via_drag (drag 1 2 [] 3 4) = Some (Some [1; 2; 3; 4]%Z) ∧
  on_select_region dump_region (drag 1 2 [] 3 4) sample_app sample_disk =
    Some (set_cfg (set_search_region [1; 2; 3; 4]%Z (cfg sample_app)) sample_app,
          write_config "selected region" sample_disk, None) ∧
  on_select_region dump_plain (drag 1 2 [] 3 4) running_app sample_disk =
    Some (set_cfg (set_search_region [1; 2; 3; 4]%Z (cfg running_app))
            running_app,
          write_config "{ buffs: [" sample_disk, Some TypeError) ∧
  ∃ a' d' e,
    on_select_region dump_plain (drag 1 2 [] 3 4) running_app sample_disk =
      Some (a', d', e) ∧
    search_region (cfg a') = Some [1; 2; 3; 4]%Z ∧
    (overlay_pos (cfg a'), threshold (cfg a'), hotkeys (cfg a'),
     buffs (cfg a')) =
    (overlay_pos (cfg running_app), threshold (cfg running_app),
     hotkeys (cfg running_app), buffs (cfg running_app)) ∧
    (running a', stop_event a', overlay_labels a') =
    (running running_app, stop_event running_app,
     overlay_labels running_app) ∧
    templates_png d' = templates_png sample_disk ∧
    image_files d' = image_files sample_disk ∧
    match dump_plain (cfg a') with
    | Dumped text => config_json d' = Some text ∧ e = None
    | DumpRaised partial ex => config_json d' = Some partial ∧ e = Some ex
    end.
Proof.
  split.
  - split; [reflexivity|].
    apply (cancel_leaves_config raising_match dump_region
             [ButtonPress 10 10; Motion 40 50; Escape]
             sample_app sample_disk).
    reflexivity.
  - split; [reflexivity|]. split; [reflexivity|]. split; [reflexivity|].
    apply (proj2 (proj2 (cancel_leaves_config raising_match dump_plain
                           (drag 1 2 [] 3 4) running_app sample_disk))
             [1; 2; 3; 4]%Z).
    reflexivity.
Defined.

(** ** Matching one template *)

Section MatcherProperties.

Variable cv2_match : ndarray → ndarray → option (Q * (Z * Z)).

Lemma scan_one_disabled (frame : ndarray) (thr now : Q) (b : Buff) :
  template b = None ∨ template b = Some None →
  scan_one cv2_match frame thr now b = mkScan (deactivate b) [] None.
Proof. unfold scan_one. by intros [-> | ->]. Qed.

(** A pass never touches the template or its recorded size. *)
Lemma scan_one_keeps_template (frame : ndarray) (thr now : Q) (b : Buff) :
  let b' := scan_buff (scan_one cv2_match frame thr now b) in
  template b' = template b ∧ t_h b' = t_h b ∧ t_w b' = t_w b.
Proof.
  cbv zeta. unfold scan_one.
  destruct (template b) as [[tmpl|]|] eqn:Htmpl; [|done..].
  destruct (cv2_match frame tmpl) as [[max_val [x y]]|]; [|done].
  destruct (Qle_bool thr max_val); [|done].
  by destruct (t_h b) eqn:Hh, (t_w b) eqn:Hw.
Qed.

(** C1, as the code has it.  Only a template whose image did not load is
    inactive unconditionally: its record is cleared for every frame and
    threshold and the scorer is not called.  For a loaded template there is
    no size check: whatever the sizes of template and frame, the scorer is
    called once on the pair; the record is cleared when the scorer returns a
    maximum below the threshold, and activated with the crop at the reported
    place when the maximum reaches the threshold. *)
Theorem scoring_is_unguarded (frame : ndarray) (thr now : Q) (b : Buff) :
  (template b = None ∨ template b = Some None →
     scan_one cv2_match frame thr now b = mkScan (deactivate b) [] None) ∧
  (∀ tmpl,
     template b = Some (Some tmpl) →
     let s := scan_one cv2_match frame thr now b in
     scan_calls s = [(frame, tmpl)] ∧
     match cv2_match frame tmpl with
     | None => scan_buff s = b ∧ scan_raised s = Some cv2_error
     | Some (max_val, (x, y)) =>
         (Qle_bool thr max_val = false →
            cleared (scan_buff s) ∧ scan_raised s = None) ∧
         (Qle_bool thr max_val = true →
            ∀ h w, t_h b = Some h → t_w b = Some w →
              active (scan_buff s) = Some true ∧
              icon_data (scan_buff s) = Some (Some (crop frame x y w h)) ∧
              scan_raised s = None)
     end).
Proof.
  split; [apply scan_one_disabled|].
  intros tmpl Htmpl. cbv zeta. unfold scan_one. rewrite Htmpl.
  destruct (cv2_match frame tmpl) as [[max_val [x y]]|]; [|done].
  split_and!.
  - destruct (Qle_bool thr max_val); [|done]. by destruct (t_h b), (t_w b).
  - by intros ->.
  - by intros -> h w -> ->.
Qed.

(** C9. The outcome of a pass is a function of the frame, the template with
    its recorded size, and the threshold: two passes agree on the exception
    raised, on the calls to the scorer and, when none is raised, on the
    active flag and the crop, whatever the time of the pass and whatever
    else the two records hold; in particular a second pass over the record
    that the first one left behind repeats its outcome. *)
Theorem match_is_deterministic (frame : ndarray) (thr : Q) :
  (∀ (b1 b2 : Buff) (now1 now2 : Q),
     template b1 = template b2 → t_h b1 = t_h b2 → t_w b1 = t_w b2 →
     let s1 := scan_one cv2_match frame thr now1 b1 in
     let s2 := scan_one cv2_match frame thr now2 b2 in
     scan_raised s1 = scan_raised s2 ∧ scan_calls s1 = scan_calls s2 ∧
     (scan_raised s1 = None →
        active (scan_buff s1) = active (scan_buff s2) ∧
        icon_data (scan_buff s1) = icon_data (scan_buff s2))) ∧
  (∀ (b : Buff) (now1 now2 : Q),
     let s1 := scan_one cv2_match frame thr now1 b in
     let s2 := scan_one cv2_match frame thr now2 (scan_buff s1) in
     scan_raised s2 = scan_raised s1 ∧ scan_calls s2 = scan_calls s1 ∧
     (scan_raised s1 = None →
        active (scan_buff s2) = active (scan_buff s1) ∧
        icon_data (scan_buff s2) = icon_data (scan_buff s1))).
Proof.
  assert (∀ (b1 b2 : Buff) (now1 now2 : Q),
     template b1 = template b2 → t_h b1 = t_h b2 → t_w b1 = t_w b2 →
     let s1 := scan_one cv2_match frame thr now1 b1 in
     let s2 := scan_one cv2_match frame thr now2 b2 in
     scan_raised s1 = scan_raised s2 ∧ scan_calls s1 = scan_calls s2 ∧
     (scan_raised s1 = None →
        active (scan_buff s1) = active (scan_buff s2) ∧
        icon_data (scan_buff s1) = icon_data (scan_buff s2))) as Hpair.
  { intros b1 b2 now1 now2 Htmpl Hh Hw. cbv zeta. unfold scan_one.
    rewrite <- Htmpl, <- Hh, <- Hw.
    destruct (template b1) as [[tmpl|]|]; [|done..].
    destruct (cv2_match frame tmpl) as [[max_val [x y]]|]; [|done].
    destruct (Qle_bool thr max_val); [|done].
    by destruct (t_h b1), (t_w b1). }
  split; [exact Hpair|].
  intros b now1 now2. cbv zeta.
  destruct (scan_one_keeps_template frame thr now1 b) as (Htmpl & Hh & Hw).
  destruct (Hpair b (scan_buff (scan_one cv2_match frame thr now1 b))
              now1 now2) as (Hr & Hc & Hout); [done..|].
  split_and!; [done..|].
  intros Hnone. destruct (Hout Hnone). done.
Qed.

(** When the scorer's maximum is below the threshold, and when the template
    did not load, the pass does what the pause does to the record. *)
Lemma scan_one_inactive_keeps_rest (frame : ndarray) (thr now : Q) (b : Buff) :
  (template b = None ∨ template b = Some None ∨
   ∃ tmpl max_val loc,
     template b = Some (Some tmpl) ∧
     cv2_match frame tmpl = Some (max_val, loc) ∧
     Qle_bool thr max_val = false) →
  scan_buff (scan_one cv2_match frame thr now b) = deactivate b.
Proof.
  unfold scan_one.
  intros [-> | [-> | (tmpl & max_val & [x y] & -> & -> & ->)]]; done.
Qed.

End MatcherProperties.

(** C10. Deactivating a template keeps its last-seen time: a pass of the
    monitor loop whose maximum is below the threshold, and the clearing done
    by a toggle while running, change nothing in a record but its active
    flag and its crop. *)
Theorem deactivation_keeps_last_seen
    (cv2_match : ndarray → ndarray → option (Q * (Z * Z))) :
  (∀ (frame tmpl : ndarray) (thr now max_val : Q) (loc : Z * Z) (b : Buff),
     template b = Some (Some tmpl) →
     cv2_match frame tmpl = Some (max_val, loc) →
     Qle_bool thr max_val = false →
     let b' := scan_buff (scan_one cv2_match frame thr now b) in
     cleared b' ∧ keeps_rest b b' ∧ last_seen b' = last_seen b) ∧
  (∀ a : App,
     running a = true →
     let a' := (toggle_running a).1 in
     Forall2 keeps_rest (get_buffs (cfg a)) (get_buffs (cfg a')) ∧
     last_seen <$> get_buffs (cfg a') = last_seen <$> get_buffs (cfg a)).
Proof.
  split.
  - intros frame tmpl thr now max_val loc b Htmpl Hscore Hlow. simpl.
    rewrite scan_one_inactive_keeps_rest by eauto 10.
    split_and!; [apply deactivate_cleared | apply deactivate_keeps_rest | done].
  - intros a Hrun. unfold toggle_running. rewrite Hrun. simpl.
    rewrite get_put_buffs. split.
    + apply Forall2_fmap_r, Forall_Forall2_diag, Forall_true.
      apply deactivate_keeps_rest.
    + rewrite <- list_fmap_compose. by apply list_fmap_ext.
Qed.

(** ** One pass of the overlay loop *)

Lemma visible_spec (b : Buff) :
  visible b = true ↔ active b = Some true ∧ ∃ icon, icon_data b = Some (Some icon).
Proof.
  unfold visible. destruct (active b) as [[]|], (icon_data b) as [[icon|]|];
    split; try done; try (intros [? [? ?]]; done).
  intros _. split; [done|]. by exists icon.
Qed.

(** A name that no visible entry carries keeps its label, or its absence. *)
Lemma place_labels_other (x0 y0 : Z) (n : string) (bs : list Buff) :
  ∀ (i : nat) (labels labels' : gmap string Label) (e : option exn),
    place_labels x0 y0 i bs labels = (labels', e) →
    (∀ j b', bs !! j = Some b' → visible b' = true → name b' ≠ n) →
    labels' !! n = labels !! n.
Proof.
  induction bs as [|b bs IH]; intros i labels labels' e Hplace Hfresh.
  - by injection Hplace as <- <-.
  - simpl in Hplace.
    assert (∀ j b', bs !! j = Some b' → visible b' = true → name b' ≠ n)
      as Hrest by (intros j b' ?; by apply (Hfresh (S j))).
    destruct (active b) as [[]|] eqn:Hact; try by eapply IH.
    destruct (icon_data b) as [[icon|]|] eqn:Hicon; try by eapply IH.
    destruct (cvtColor_BGR2RGB icon) as [tk_img|e'].
    + rewrite (IH _ _ _ _ Hplace Hrest). apply lookup_insert_ne.
      apply (Hfresh 0%nat b); [done|]. apply visible_spec. eauto.
    + by injection Hplace as <- <-.
Qed.

(** The entry at position [k] of the remaining list is drawn at the slot of
    its position in the whole list. *)
Lemma place_labels_slot (x0 y0 : Z) (bs : list Buff) :
  ∀ (i k : nat) (b : Buff) (labels labels' : gmap string Label),
    place_labels x0 y0 i bs labels = (labels', None) →
    bs !! k = Some b →
    visible b = true →
    (∀ j b', k < j → bs !! j = Some b' → visible b' = true →
             name b' ≠ name b) →
    ∃ icon tk_img,
      icon_data b = Some (Some icon) ∧
      cvtColor_BGR2RGB icon = Ok tk_img ∧
      labels' !! name b =
        Some (mkLabel tk_img (x0 + Z.of_nat (i + k) * spacing) y0).
Proof.
  induction bs as [|b0 bs IH]; intros i k b labels labels' Hplace Hk Hvis Hlast;
    [done|].
  destruct k as [|k]; simpl in Hk.
  - injection Hk as ->. simpl in Hplace.
    apply visible_spec in Hvis as [Hact [icon Hicon]].
    rewrite Hact, Hicon in Hplace.
    destruct (cvtColor_BGR2RGB icon) as [tk_img|e'] eqn:Hcvt; [|done].
    exists icon, tk_img. split_and!; [done..|].
    erewrite place_labels_other; [|exact Hplace|].
    + rewrite lookup_insert_eq. do 3 f_equal. lia.
    + intros j b' Hj. apply (Hlast (S j)); [lia | done].
  - assert (∀ j b', k < j → bs !! j = Some b' → visible b' = true →
                    name b' ≠ name b) as Hlast'.
    { intros j b' Hlt. apply (Hlast (S j)). lia. }
    simpl in Hplace.
    assert (∃ labels0, place_labels x0 y0 (S i) bs labels0 = (labels', None))
      as [labels0 Hplace'].
    { destruct (active b0) as [[]|]; eauto.
      destruct (icon_data b0) as [[icon0|]|]; eauto.
      destruct (cvtColor_BGR2RGB icon0); [eauto | done]. }
    destruct (IH _ _ _ _ _ Hplace' Hk Hvis Hlast')
      as (icon & tk_img & Hicon & Hcvt & Hlook).
    exists icon, tk_img. split_and!; [done..|].
    rewrite Hlook. do 3 f_equal. lia.
Qed.

(** C8. In a pass of the overlay loop that runs to its end, the label of a
    template that is active and has a crop shows the crop, with its channels
    swapped, at [x = x0 + i * spacing] and [y = y0], where [(x0, y0)] is the
    overlay position and [i] is the index of the template in
    [cfg["buffs"]], counting every declared entry; [spacing] is 70.  (When
    two visible entries share a name, the one declared last owns the
    label.) *)
Theorem label_placed_by_declaration_index
    (a a' : App) (x0 y0 : Z) (i : nat) (b : Buff) :
  overlay_pass a = (a', None) →
  default [100; 100]%Z (overlay_pos (cfg a)) = [x0; y0] →
  get_buffs (cfg a) !! i = Some b →
  visible b = true →
  (∀ j b', i < j → get_buffs (cfg a) !! j = Some b' → visible b' = true →
           name b' ≠ name b) →
  ∃ icon tk_img,
    icon_data b = Some (Some icon) ∧
    cvtColor_BGR2RGB icon = Ok tk_img ∧
    overlay_labels a' !! name b =
      Some (mkLabel tk_img (x0 + Z.of_nat i * 70) y0).
Proof.
  unfold overlay_pass. intros Hpass Hpos Hi Hvis Hlast.
  rewrite Hpos in Hpass.
  destruct (place_labels _ _ _ _ _) as [labels e] eqn:Hplace.
  injection Hpass as <- ->.
  apply (place_labels_slot _ _ _ _ _ _ _ _ Hplace Hi Hvis Hlast).
Qed.

(** ** The monitor loop among the other activities *)

Lemma monitor_enter_region (c : Config) (l t r b : Z) :
  default [300; 1000; 1100; 1050]%Z (search_region c) = [l; t; r; b] →
  monitor_enter c =
    Ok (mkMonitor (l, t, r, b) (default 0.82%Q (threshold c))).
Proof. unfold monitor_enter. by intros ->. Qed.

Section RunProperties.

Variable cv2_match : ndarray → ndarray → option (Q * (Z * Z)).
Variable json_dump : Config → dumped.

(** A thread that stopped looping does not loop again. *)
Lemma pinned_retire (tid tid' : nat) (R : Z * Z * Z * Z) (w : World)
    (a : App) (t : thread) (cs : list (nat * (Z * Z * Z * Z)))
    (sc : list (ndarray * ndarray)) :
  pinned tid R w →
  (∀ m, t ≠ Looping m) →
  (∀ c, c ∈ cs → c ∈ captures w ∨ (c.1 = tid → c.2 = R)) →
  pinned tid R (mkWorld a (disk w) (overlay w) (<[tid' := t]> (threads w)) cs sc).
Proof.
  intros (Hlen & Hloop & Hcap) Ht Hcs. split_and!; simpl.
  - by rewrite length_insert.
  - intros m. destruct (decide (tid' = tid)) as [->|Hne].
    + rewrite list_lookup_insert_eq by done. intros [= ->]. by destruct (Ht m).
    + rewrite list_lookup_insert_ne by done. apply Hloop.
  - intros c Hc. destruct (Hcs c Hc); auto.
Qed.

Lemma pinned_same_threads (tid : nat) (R : Z * Z * Z * Z) (w : World)
    (a : App) (d : Disk) (o : overlay_thread)
    (cs : list (nat * (Z * Z * Z * Z))) (sc : list (ndarray * ndarray)) :
  pinned tid R w →
  (∀ c, c ∈ cs → c ∈ captures w ∨ (c.1 = tid → c.2 = R)) →
  pinned tid R (mkWorld a d o (threads w) cs sc).
Proof.
  intros (Hlen & Hloop & Hcap) Hcs. split_and!; simpl; [done..|].
  intros c Hc. destruct (Hcs c Hc); auto.
Qed.

Lemma monitor_iter_pinned (tid tid' : nat) (R : Z * Z * Z * Z) (w : World)
    (m : Monitor) (g : grabbed) (now : Q) :
  pinned tid R w →
  threads w !! tid' = Some (Looping m) →
  pinned tid R (monitor_iter cv2_match tid' m g now w).
Proof.
  intros Hpin Hm. unfold monitor_iter.
  assert (∀ c, c ∈ captures w ++ [(tid', region m)] →
               c ∈ captures w ∨ (c.1 = tid → c.2 = R)) as Hcs.
  { intros c [Hc|Hc%list_elem_of_singleton]%elem_of_app; [by left|].
    right. subst c; simpl. intros ->. by apply Hpin. }
  destruct (running (app w) && negb (stop_event (app w))).
  - destruct g as [frame| |e].
    + destruct (scan_all _ _ _ _ _) as [[bs calls] [e|]].
      * by apply pinned_retire.
      * by apply pinned_same_threads.
    + by apply pinned_same_threads.
    + by apply pinned_retire.
  - apply pinned_retire; [done..|]. intros c Hc. by left.
Qed.

Lemma step_pinned (tid : nat) (R : Z * Z * Z * Z) (w : World) (ev : event) :
  pinned tid R w → pinned tid R (step cv2_match json_dump w ev).
Proof.
  intros Hpin. destruct ev as [|gesture|tid' g now|]; simpl.
  - destruct (toggle_running (app w)) as [a' started].
    destruct started; [|apply pinned_same_threads; auto].
    destruct Hpin as (Hlen & Hloop & Hcap). split_and!; simpl; [| |done].
    + rewrite length_app. lia.
    + intros m. rewrite lookup_app_l by done. apply Hloop.
  - destruct (on_select_region _ _ _ _) as [[[a' d'] e]|]; [|done].
    apply pinned_same_threads; auto.
  - destruct (threads w !! tid') as [[m| |e]|] eqn:Hm; try done.
    by apply monitor_iter_pinned.
  - destruct (overlay w); [|done..].
    destruct (stop_event (app w)); [apply pinned_same_threads; auto|].
    destruct (overlay_pass (app w)) as [a' e].
    apply pinned_same_threads; auto.
Qed.

Lemma run_pinned (tid : nat) (R : Z * Z * Z * Z) (evs : list event) :
  ∀ w, pinned tid R w → pinned tid R (run cv2_match json_dump w evs).
Proof.
  induction evs as [|ev evs IH]; intros w Hpin; [done|].
  apply IH, step_pinned, Hpin.
Qed.

Lemma sole_looper_retire (tid tid' : nat) (R : Z * Z * Z * Z)
    (old cs : list (nat * (Z * Z * Z * Z))) (w : World) (a : App) (t : thread)
    (sc : list (ndarray * ndarray)) :
  sole_looper tid R old w →
  (∀ m, t ≠ Looping m) →
  cs = captures w ∨ cs = captures w ++ [(tid, R)] →
  sole_looper tid R old
    (mkWorld a (disk w) (overlay w) (<[tid' := t]> (threads w)) cs sc).
Proof.
  intros (Hloop & new & Hcap & Hnew) Ht Hcs. split; simpl.
  - intros i m. destruct (decide (tid' = i)) as [->|Hne].
    + intros Hi. apply list_lookup_insert_Some in Hi as [(_ & -> & _)|(? & _)];
        [by destruct (Ht m) | done].
    + rewrite list_lookup_insert_ne by done. apply Hloop.
  - destruct Hcs as [-> | ->].
    + by exists new.
    + exists (new ++ [(tid, R)]). rewrite Hcap, (assoc_L (++)). split; [done|].
      apply Forall_app. split; [done|]. by constructor.
Qed.

Lemma sole_looper_same_threads (tid : nat) (R : Z * Z * Z * Z)
    (old cs : list (nat * (Z * Z * Z * Z))) (w : World) (a : App) (d : Disk)
    (o : overlay_thread) (sc : list (ndarray * ndarray)) :
  sole_looper tid R old w →
  cs = captures w ∨ cs = captures w ++ [(tid, R)] →
  sole_looper tid R old (mkWorld a d o (threads w) cs sc).
Proof.
  intros (Hloop & new & Hcap & Hnew) Hcs. split; simpl; [done|].
  destruct Hcs as [-> | ->].
  - by exists new.
  - exists (new ++ [(tid, R)]). rewrite Hcap, (assoc_L (++)). split; [done|].
    apply Forall_app. split; [done|]. by constructor.
Qed.

Lemma step_sole_looper (tid : nat) (R : Z * Z * Z * Z)
    (old : list (nat * (Z * Z * Z * Z))) (w : World) (ev : event) :
  ev ≠ HotkeyToggle →
  sole_looper tid R old w →
  sole_looper tid R old (step cv2_match json_dump w ev).
Proof.
  intros Hev Hsole. destruct ev as [|gesture|tid' g now|]; simpl; [done| | |].
  - destruct (on_select_region _ _ _ _) as [[[a' d'] e]|]; [|done].
    apply sole_looper_same_threads; auto.
  - destruct (threads w !! tid') as [[m| |e]|] eqn:Hm; try done.
    destruct (proj1 Hsole _ _ Hm) as [-> HR]. unfold monitor_iter. rewrite HR.
    destruct (running (app w) && negb (stop_event (app w))).
    + destruct g as [frame| |e].
      * destruct (scan_all _ _ _ _ _) as [[bs calls] [e|]].
        -- apply sole_looper_retire; auto.
        -- apply sole_looper_same_threads; auto.
      * apply sole_looper_same_threads; auto.
      * apply sole_looper_retire; auto.
    + apply sole_looper_retire; auto.
  - destruct (overlay w); [|done..].
    destruct (stop_event (app w)); [apply sole_looper_same_threads; auto|].
    destruct (overlay_pass (app w)) as [a' e].
    apply sole_looper_same_threads; auto.
Qed.

Lemma run_sole_looper (tid : nat) (R : Z * Z * Z * Z)
    (old : list (nat * (Z * Z * Z * Z))) (evs : list event) :
  ∀ w, HotkeyToggle ∉ evs →
       sole_looper tid R old w →
       sole_looper tid R old (run cv2_match json_dump w evs).
Proof.
  induction evs as [|ev evs IH]; intros w Hevs Hsole; [done|].
  apply not_elem_of_cons in Hevs as [Hev Hevs].
  apply IH; [done|]. by apply step_sole_looper.
Qed.

(** X26. A toggle while idle starts a monitor thread that reads the search
    region of the configuration once.  Whatever happens afterwards (region
    selections that replace the configured region, further toggles, passes
    of any loop), every capture request of that thread is for the region it
    read when it was started.  Until the next toggle, and provided that no
    monitor thread of an earlier period is still looping, the capture
    requests made are requests of that thread, so all of them are for that
    region.  (The entry of the thread, where the region is read, is one
    event with the toggle that starts it.) *)
Theorem region_is_pinned (w : World) (evs : list event) (l t r b : Z) :
  running (app w) = false →
  default [300; 1000; 1100; 1050]%Z (search_region (cfg (app w))) =
    [l; t; r; b] →
  Forall (λ c, c.1 < length (threads w)) (captures w) →
  let tid := length (threads w) in
  let w1 := step cv2_match json_dump w HotkeyToggle in
  running (app w1) = true ∧
  (∃ m, threads w1 !! tid = Some (Looping m) ∧ region m = (l, t, r, b)) ∧
  (∀ c, c ∈ captures (run cv2_match json_dump w1 evs) →
        c.1 = tid → c.2 = (l, t, r, b)) ∧
  ((∀ i m, threads w !! i ≠ Some (Looping m)) →
   HotkeyToggle ∉ evs →
   ∃ new,
     captures (run cv2_match json_dump w1 evs) = captures w ++ new ∧
     Forall (λ c, c = (tid, (l, t, r, b))) new).
Proof.
  intros Hidle Hregion Hlog. cbv zeta.
  assert (step cv2_match json_dump w HotkeyToggle =
            mkWorld (mkApp (cfg (app w)) true false (overlay_labels (app w)))
              (disk w) (overlay w)
              (threads w ++
                 [Looping (mkMonitor (l, t, r, b)
                             (default 0.82%Q (threshold (cfg (app w)))))])
              (captures w) (scored w)) as ->.
  { simpl. unfold toggle_running. rewrite Hidle. simpl.
    unfold spawn_monitor. by rewrite (monitor_enter_region _ _ _ _ _ Hregion). }
  split; [reflexivity|]. split; [|split].
  - eexists. split; [simpl; by rewrite lookup_app_r, Nat.sub_diag | reflexivity].
  - apply run_pinned. split_and!; simpl.
    + rewrite length_app; simpl. lia.
    + intros m. rewrite lookup_app_r, Nat.sub_diag by done.
      by intros [= <-].
    + intros [tid' R'] Hc Htid. simpl in Htid.
      rewrite Forall_forall in Hlog. specialize (Hlog _ Hc). simpl in Hlog. lia.
  - intros Hquiet Hevs.
    apply (run_sole_looper (length (threads w)) (l, t, r, b) (captures w));
      [done|].
    split; simpl.
    + intros i m Hi. apply lookup_app_Some in Hi as [Hi|[Hge Hi]].
      * by destruct (Hquiet i m).
      * destruct (i - length (threads w)) as [|k] eqn:Hk; [|done].
        injection Hi as <-. split; [lia | done].
    + exists []. by rewrite (right_id_L [] (++)).
Qed.

End RunProperties.

(** ** Loading the settings *)

(** C3, as the code has it.  When the settings file is missing, loading
    returns the default configuration, with one declaration for each image
    found in the templates directory, and writes it to the settings file.
    When the file exists, loading writes nothing: it returns what the text
    decodes to, and raises the decoder's error when the text does not
    decode. *)
Theorem load_config_cases (json_load : string → option Config)
    (json_dump : Config → dumped) (d : Disk) :
  (config_json d = None →
     let c :=
       set_buffs (discovered <$> default [] (templates_png d)) DEFAULT_CONFIG in
     ∀ text, json_dump c = Dumped text →
       load_config json_load json_dump d = (write_config text d, Ok c)) ∧
  (∀ text, config_json d = Some text →
     load_config json_load json_dump d =
       (d, match json_load text with
           | Some c => Ok c
           | None => Raise JSONDecodeError
           end)).
Proof.
  unfold load_config. split.
  - intros -> text Hdump. unfold save_config.
    destruct (templates_png d); simpl in *; by rewrite Hdump.
  - intros text ->. by destruct (json_load text).
Qed.

Lemma load_config_cases_witness :
  config_json sample_disk = None ∧
  load_config decode_known dump_region sample_disk =
    (write_config "default region" sample_disk,
     Ok (set_buffs
           [discovered (mkPath "icon_haste" "templates/icon_haste.png");
            discovered (mkPath "icon_shield" "templates/icon_shield.png")]
           DEFAULT_CONFIG)).
Proof.
  split; [reflexivity|].
  apply (proj1 (load_config_cases decode_known dump_region sample_disk));
    reflexivity.
Defined.

(** C3 as stated fails: a settings file that does not decode makes loading
    raise; no configuration is returned, the file stays as it is, and the
    application object is not built. *)
Lemma corrupt_settings_counterexample :
  config_json corrupt_disk = Some "{ search_region: [300, 10" ∧
  decode_known "{ search_region: [300, 10" = None ∧
  load_config decode_known dump_region corrupt_disk =
    (corrupt_disk, Raise JSONDecodeError) ∧
  startup decode_known dump_region corrupt_disk = Raise JSONDecodeError.
Proof. split_and!; reflexivity. Qed.

(** ** The theorems at the sample data *)


Lemma scoring_is_unguarded_witness :
  too_large icon_shield frame_1x1 ∧
  template shield = Some (Some icon_shield) ∧
  scan_calls (scan_one raising_match frame_1x1 0.82 5 shield) =
    [(frame_1x1, icon_shield)] ∧
  scan_buff (scan_one raising_match frame_1x1 0.82 5 shield) = shield ∧
  scan_raised (scan_one raising_match frame_1x1 0.82 5 shield) =
    Some cv2_error.
Proof.
  split; [left; reflexivity|]. split; [reflexivity|].
  apply (proj2 (scoring_is_unguarded raising_match frame_1x1 0.82 5 shield)
           icon_shield).
  reflexivity.
Defined.

(** C1 as stated fails: for a 2x2 template and a 1x1 frame the scorer is
    called, whatever the scorer is, and when it reports a maximum above the
    threshold the record becomes active. *)
Lemma geometric_guard_counterexample :
  too_large icon_shield frame_1x1 ∧
  (∀ cv2_match : ndarray → ndarray → option (Q * (Z * Z)),
     scan_calls (scan_one cv2_match frame_1x1 0.82 5 shield) =
       [(frame_1x1, icon_shield)]) ∧
  active (scan_buff (scan_one (constant_match 1 (0, 0)%Z) frame_1x1 0.82 5
                       shield)) = Some true.
Proof.
  split; [left; reflexivity|]. split; [|reflexivity].
  intros cv2_match. unfold scan_one; simpl.
  destruct (cv2_match frame_1x1 icon_shield) as [[max_val [x y]]|]; [|done].
  by destruct (Qle_bool 0.82 max_val).
Qed.

Lemma region_is_pinned_witness :
  running (app sample_world) = false ∧
  search_region
    (cfg (app (run (constant_match 1 (1, 1)%Z) dump_region
                 (step (constant_match 1 (1, 1)%Z) dump_region sample_world
                    HotkeyToggle)
                 [MonitorIter 0 (Frame frame_3x4) 5;
                  HotkeySelect (drag 500 500 [] 100 100);
                  MonitorIter 0 NoFrame 6]))) =
    Some [100; 100; 500; 500]%Z ∧
  (∀ c,
     c ∈ captures (run (constant_match 1 (1, 1)%Z) dump_region
                     (step (constant_match 1 (1, 1)%Z) dump_region sample_world
                        HotkeyToggle)
                     [MonitorIter 0 (Frame frame_3x4) 5;
                      HotkeySelect (drag 500 500 [] 100 100);
                      MonitorIter 0 NoFrame 6]) →
     c.1 = 0%nat → c.2 = (300, 1000, 1100, 1050)%Z) ∧
  ∃ new,
    captures (run (constant_match 1 (1, 1)%Z) dump_region
                (step (constant_match 1 (1, 1)%Z) dump_region sample_world
                   HotkeyToggle)
                [MonitorIter 0 (Frame frame_3x4) 5;
                 HotkeySelect (drag 500 500 [] 100 100);
                 MonitorIter 0 NoFrame 6]) = [] ++ new ∧
    Forall (λ c, c = (0%nat, (300, 1000, 1100, 1050)%Z)) new.
Proof.
  split; [reflexivity|]. split; [reflexivity|].
  destruct (region_is_pinned (constant_match 1 (1, 1)%Z) dump_region
              sample_world
              [MonitorIter 0 (Frame frame_3x4) 5;
               HotkeySelect (drag 500 500 [] 100 100);
               MonitorIter 0 NoFrame 6] 300 1000 1100 1050)
    as (_ & _ & Hthread & Hperiod);
    [reflexivity | reflexivity | constructor |].
  split; [exact Hthread|].
  apply Hperiod.
  - intros i m. simpl. by rewrite lookup_nil.
  - intros Hin. repeat (apply elem_of_cons in Hin as [Hin|Hin]; [done|]).
    by apply elem_of_nil in Hin.
Defined.

(** C2, at a pause and a resume that fall between two loop tests of a
    monitor thread.  The program is idle and the region [100, 100, 500, 500]
    has been selected; the toggle that starts the new Running period starts
    a thread that reads this region, but the thread of the earlier period
    finds [running] set again at its next loop test and keeps looping: in
    the new period it asks for a frame of [300, 1000, 1100, 1050], the
    region read at the earlier transition. *)
Lemma stale_loop_captures_old_region :
  running (app stale_world) = false ∧
  search_region (cfg (app stale_world)) = Some [100; 100; 500; 500]%Z ∧
  running (app (step (constant_match 1 (1, 1)%Z) dump_region stale_world
                  HotkeyToggle)) = true ∧
  threads (step (constant_match 1 (1, 1)%Z) dump_region stale_world
             HotkeyToggle) =
    [Looping (mkMonitor (300, 1000, 1100, 1050)%Z 0.82%Q);
     Looping (mkMonitor (100, 100, 500, 500)%Z 0.82%Q)] ∧
  captures (run (constant_match 1 (1, 1)%Z) dump_region
              (step (constant_match 1 (1, 1)%Z) dump_region stale_world
                 HotkeyToggle)
              [MonitorIter 0 NoFrame 6; MonitorIter 1 NoFrame 7]) =
    captures stale_world ++
      [(0%nat, (300, 1000, 1100, 1050)%Z); (1%nat, (100, 100, 500, 500)%Z)].
Proof. split_and!; reflexivity. Qed.

(** A pause and a resume between two iterations of a monitor thread leave
    that thread looping next to the one just started, each with the region
    it read at its own start. *)
Remark overlapping_monitor_threads :
  captures (run (constant_match 1 (1, 1)%Z) dump_region sample_world
              [HotkeyToggle; MonitorIter 0 NoFrame 5;
               HotkeySelect (drag 500 500 [] 100 100);
               HotkeyToggle; HotkeyToggle;
               MonitorIter 0 NoFrame 6; MonitorIter 1 NoFrame 7]) =
    [(0%nat, (300, 1000, 1100, 1050)%Z);
     (0%nat, (300, 1000, 1100, 1050)%Z);
     (1%nat, (100, 100, 500, 500)%Z)].
Proof. reflexivity. Qed.

Lemma label_placed_by_declaration_index_witness :
  overlay_pass running_app =
    (set_overlay_labels
       (<["Shield" := mkLabel (map (map swap_channels) icon_shield) 170 100]> ∅)
       running_app, None) ∧
  get_buffs (cfg running_app) !! 1%nat = Some shield_seen ∧
  visible haste = false ∧
  ∃ icon tk_img,
    icon_data shield_seen = Some (Some icon) ∧
    cvtColor_BGR2RGB icon = Ok tk_img ∧
    overlay_labels (overlay_pass running_app).1 !! "Shield" =
      Some (mkLabel tk_img (100 + Z.of_nat 1 * 70) 100).
Proof.
  split; [reflexivity|]. split; [reflexivity|]. split; [reflexivity|].
  apply (label_placed_by_declaration_index running_app
           (overlay_pass running_app).1 100 100 1 shield_seen);
    [reflexivity | reflexivity | reflexivity | reflexivity |].
  intros [|[|j]] b' Hlt Hj; [lia | lia | done].
Defined.

Lemma match_is_deterministic_witness :
  template shield = template shield_seen ∧
  active shield ≠ active shield_seen ∧
  let s1 := scan_one (constant_match 1 (1, 1)%Z) frame_3x4 0.82 5 shield in
  let s2 := scan_one (constant_match 1 (1, 1)%Z) frame_3x4 0.82 9 shield_seen in
  scan_raised s1 = scan_raised s2 ∧ scan_calls s1 = scan_calls s2 ∧
  (scan_raised s1 = None →
     active (scan_buff s1) = active (scan_buff s2) ∧
     icon_data (scan_buff s1) = icon_data (scan_buff s2)).
Proof.
  split; [reflexivity|]. split; [discriminate|].
  apply (proj1 (match_is_deterministic (constant_match 1 (1, 1)%Z)
                  frame_3x4 0.82) shield shield_seen 5%Q 9%Q);
    reflexivity.
Defined.

Lemma deactivation_keeps_last_seen_witness :
  template shield_seen = Some (Some icon_shield) ∧
  constant_match 0.5 (0, 0)%Z frame_3x4 icon_shield = Some (0.5%Q, (0, 0)%Z) ∧
  Qle_bool 0.82 0.5 = false ∧
  last_seen (scan_buff (scan_one (constant_match 0.5 (0, 0)%Z) frame_3x4
                          0.82 21 shield_seen)) = Some 17%Q ∧
  last_seen <$> get_buffs (cfg (toggle_running running_app).1) =
    [None; Some 17%Q].
Proof.
  split; [reflexivity|]. split; [reflexivity|]. split; [reflexivity|].
  destruct (deactivation_keeps_last_seen (constant_match 0.5 (0, 0)%Z))
    as [Hscan Hpause].
  split.
  - apply (Hscan frame_3x4 icon_shield 0.82%Q 21%Q 0.5%Q (0, 0)%Z shield_seen);
      reflexivity.
  - apply (Hpause running_app). reflexivity.
Defined.

(** * Further properties *)

(** ** The monitor cycle *)

Section CycleProperties.

Variable cv2_match : ndarray → ndarray → option (Q * (Z * Z)).

Lemma scan_one_declaration (frame : ndarray) (thr now : Q) (b : Buff) :
  declaration (scan_buff (scan_one cv2_match frame thr now b)) = declaration b.
Proof.
  destruct b as [n f r d tm h w a i l]. unfold scan_one, declaration; simpl.
  destruct tm as [[tmpl|]|]; [|done..].
  destruct (cv2_match frame tmpl) as [[max_val [x y]]|]; [|done].
  destruct (Qle_bool thr max_val); [|done].
  by destruct h, w.
Qed.

Lemma declaration_sized (b b' : Buff) :
  declaration b' = declaration b → sized b → sized b'.
Proof.
  unfold declaration, sized. intros [= _ _ _ _ -> -> ->]. done.
Qed.


Lemma scan_one_calls (frame : ndarray) (thr now : Q) (b : Buff) :
  scan_calls (scan_one cv2_match frame thr now b) =
    (λ tmpl, (frame, tmpl)) <$> loaded_images [b].
Proof.
  unfold scan_one, loaded_images; simpl.
  destruct (template b) as [[tmpl|]|]; [|done..]. simpl.
  destruct (cv2_match frame tmpl) as [[max_val [x y]]|]; [|done].
  destruct (Qle_bool thr max_val); [|done].
  by destruct (t_h b), (t_w b).
Qed.

Lemma scan_one_sized_raised (frame : ndarray) (thr now : Q) (b : Buff) :
  sized b →
  scan_raised (scan_one cv2_match frame thr now b) =
    match template b with
    | Some (Some tmpl) =>
        if cv2_match frame tmpl is None then Some cv2_error else None
    | _ => None
    end.
Proof.
  intros Hsized. unfold scan_one.
  destruct (template b) as [[tmpl|]|] eqn:Htmpl; [|done..].
  destruct (Hsized tmpl Htmpl) as [-> ->].
  destruct (cv2_match frame tmpl) as [[max_val [x y]]|]; [|done].
  by destruct (Qle_bool thr max_val).
Qed.

(** How the loop over the catalog unfolds. *)
Lemma scan_all_cons (frame : ndarray) (thr now : Q) (b : Buff)
    (bs : list Buff) :
  scan_all cv2_match frame thr now (b :: bs) =
    let s := scan_one cv2_match frame thr now b in
    match scan_raised s with
    | Some e => (scan_buff s :: bs, scan_calls s, Some e)
    | None =>
        let r := scan_all cv2_match frame thr now bs in
        (scan_buff s :: r.1.1, scan_calls s ++ r.1.2, r.2)
    end.
Proof.
  simpl. destruct (scan_raised _); [done|].
  by destruct (scan_all _ _ _ _ _) as [[? ?] ?].
Qed.

Lemma scan_all_declaration (frame : ndarray) (thr now : Q) (bs : list Buff) :
  declaration <$> (scan_all cv2_match frame thr now bs).1.1 = declaration <$> bs.
Proof.
  induction bs as [|b bs IH]; [done|].
  rewrite scan_all_cons. cbv zeta.
  destruct (scan_raised _); csimpl; by rewrite scan_one_declaration, ?IH.
Qed.

Lemma scan_all_sized (frame : ndarray) (thr now : Q) (bs : list Buff) :
  Forall sized bs → Forall sized (scan_all cv2_match frame thr now bs).1.1.
Proof.
  induction 1 as [|b bs Hb Hbs IH]; [constructor|].
  rewrite scan_all_cons. cbv zeta.
  assert (sized (scan_buff (scan_one cv2_match frame thr now b))) as Hb'.
  { eapply declaration_sized; [apply scan_one_declaration | done]. }
  destruct (scan_raised _); simpl; by constructor.
Qed.

Lemma scan_all_completed (frame : ndarray) (thr now : Q) (bs : list Buff) :
  (scan_all cv2_match frame thr now bs).2 = None →
  (scan_all cv2_match frame thr now bs).1.1 =
    (λ b, scan_buff (scan_one cv2_match frame thr now b)) <$> bs ∧
  Forall (λ b, scan_raised (scan_one cv2_match frame thr now b) = None) bs.
Proof.
  induction bs as [|b bs IH]; [done|].
  rewrite scan_all_cons. cbv zeta.
  destruct (scan_raised _) eqn:Hr; [done|]. simpl. intros He.
  destruct (IH He) as [-> Hall]. split; [done|]. by constructor.
Qed.

Lemma scan_all_calls_completed (frame : ndarray) (thr now : Q)
    (bs : list Buff) :
  (scan_all cv2_match frame thr now bs).2 = None →
  (scan_all cv2_match frame thr now bs).1.2 =
    (λ tmpl, (frame, tmpl)) <$> loaded_images bs.
Proof.
  induction bs as [|b bs IH]; [done|].
  rewrite scan_all_cons. cbv zeta.
  destruct (scan_raised _) eqn:Hr; [done|]. cbn [fst snd]. intros He.
  rewrite (IH He), scan_one_calls, <- fmap_app. f_equal.
  unfold loaded_images. by rewrite <- omap_app.
Qed.

Lemma scan_all_sized_raised (frame : ndarray) (thr now : Q) (bs : list Buff) :
  Forall sized bs →
  let r := scan_all cv2_match frame thr now bs in
  (r.2 = None ∨ r.2 = Some cv2_error) ∧
  (r.2 = None ↔ ∀ tmpl, tmpl ∈ loaded_images bs → cv2_match frame tmpl ≠ None).
Proof.
  intros Hbs. cbv zeta.
  induction Hbs as [|b bs Hb Hbs IH].
  { simpl. split; [by left|]. split; [|done]. intros _ tmpl Hin.
    by apply elem_of_nil in Hin. }
  rewrite scan_all_cons. cbv zeta.
  rewrite (scan_one_sized_raised _ _ _ _ Hb).
  assert (∀ P : ndarray → Prop,
            (∀ tmpl, tmpl ∈ loaded_images (b :: bs) → P tmpl) ↔
            (∀ tmpl, template b = Some (Some tmpl) → P tmpl) ∧
            (∀ tmpl, tmpl ∈ loaded_images bs → P tmpl)) as Hsplit.
  { intros P. unfold loaded_images; simpl.
    destruct (template b) as [[tmpl0|]|]; simpl.
    - split.
      + intros H. split; [intros ? [= <-]|intros tmpl Hin]; apply H;
          [left | by right].
      + intros [H1 H2] tmpl [->|Hin]%elem_of_cons; auto.
    - split; [intros H; split; [done | exact H] | by intros [_ H]].
    - split; [intros H; split; [done | exact H] | by intros [_ H]]. }
  rewrite Hsplit.
  destruct (template b) as [[tmpl|]|] eqn:Htmpl.
  - destruct (cv2_match frame tmpl) eqn:Hscore; simpl.
    + destruct IH as [IH1 IH2]. split; [done|]. rewrite IH2.
      split; [|by intros [_ H]]. intros H. split; [|done].
      intros ? [= <-]. by rewrite Hscore.
    + split; [by right|]. split; [done|]. intros [H _].
      by destruct (H tmpl).
  - simpl. destruct IH as [IH1 IH2]. split; [done|]. rewrite IH2.
    split; [by intros H; split | by intros [_ H]].
  - simpl. destruct IH as [IH1 IH2]. split; [done|]. rewrite IH2.
    split; [by intros H; split | by intros [_ H]].
Qed.

(** X1. After [load_templates] has recorded the sizes, a monitor cycle never
    fails for a missing key: it raises nothing, or the error of the scorer,
    and it runs to its end exactly when the scorer accepts every loaded
    template for this frame; the sizes stay recorded. *)
Theorem cycle_raises_only_with_scorer (frame : ndarray) (thr now : Q)
    (bs : list Buff) :
  Forall sized bs →
  let r := scan_all cv2_match frame thr now bs in
  Forall sized r.1.1 ∧
  (r.2 = None ∨ r.2 = Some cv2_error) ∧
  (r.2 = None ↔ ∀ tmpl, tmpl ∈ loaded_images bs → cv2_match frame tmpl ≠ None).
Proof.
  intros Hbs. cbv zeta. split; [by apply scan_all_sized|].
  by apply scan_all_sized_raised.
Qed.

(** X2. A cycle that raises nothing gives every entry of the catalog its own
    pass, whether or not earlier entries matched, and calls the scorer once
    for each loaded template, in the order of the catalog. *)
Theorem cycle_scores_every_template (frame : ndarray) (thr now : Q)
    (bs : list Buff) :
  let r := scan_all cv2_match frame thr now bs in
  r.2 = None →
  r.1.1 = (λ b, scan_buff (scan_one cv2_match frame thr now b)) <$> bs ∧
  r.1.2 = (λ tmpl, (frame, tmpl)) <$> loaded_images bs.
Proof.
  cbv zeta. intros He. split.
  - by apply scan_all_completed.
  - by apply scan_all_calls_completed.
Qed.


Lemma scan_one_settles (frame : ndarray) (thr now : Q) (b : Buff) :
  scan_raised (scan_one cv2_match frame thr now b) = None →
  (scan_buff (scan_one cv2_match frame thr now b) = deactivate b) ∨
  (∃ tmpl max_val x y h w,
     template b = Some (Some tmpl) ∧
     cv2_match frame tmpl = Some (max_val, (x, y)) ∧
     Qle_bool thr max_val = true ∧ t_h b = Some h ∧ t_w b = Some w ∧
     scan_buff (scan_one cv2_match frame thr now b) =
       set_last_seen now
         (set_active true (set_icon_data (Some (crop frame x y w h)) b))).
Proof.
  unfold scan_one.
  destruct (template b) as [[tmpl|]|]; [|by left..].
  destruct (cv2_match frame tmpl) as [[max_val [x y]]|] eqn:Hs; [|done].
  destruct (Qle_bool thr max_val) eqn:Hge; [|by left].
  destruct (t_h b) as [h|], (t_w b) as [w|]; try done.
  intros _. right. by exists tmpl, max_val, x, y, h, w.
Qed.

(** X4. A pass that raises nothing leaves the record either inactive without
    a crop and with the last-seen time it had, or active with a crop and
    with the time of the pass as its last-seen time; so a last-seen time
    that is not in the future never decreases and never passes the clock.
    After a cycle that raises nothing every record of the catalog is in one
    of the two states. *)
Theorem pass_settles_record (frame : ndarray) (thr now : Q) :
  (∀ b : Buff,
     let s := scan_one cv2_match frame thr now b in
     scan_raised s = None →
     (cleared (scan_buff s) ∧ last_seen (scan_buff s) = last_seen b ∨
      active (scan_buff s) = Some true ∧
      (∃ icon, icon_data (scan_buff s) = Some (Some icon)) ∧
      last_seen (scan_buff s) = Some now) ∧
     (∀ t, last_seen b = Some t → (t <= now)%Q →
           ∃ t', last_seen (scan_buff s) = Some t' ∧
                 (t <= t')%Q ∧ (t' <= now)%Q)) ∧
  (∀ bs : list Buff,
     (scan_all cv2_match frame thr now bs).2 = None →
     Forall settled (scan_all cv2_match frame thr now bs).1.1).
Proof.
  assert (∀ b : Buff,
     scan_raised (scan_one cv2_match frame thr now b) = None →
     cleared (scan_buff (scan_one cv2_match frame thr now b)) ∧
       last_seen (scan_buff (scan_one cv2_match frame thr now b)) =
         last_seen b ∨
     active (scan_buff (scan_one cv2_match frame thr now b)) = Some true ∧
       (∃ icon, icon_data (scan_buff (scan_one cv2_match frame thr now b)) =
                  Some (Some icon)) ∧
       last_seen (scan_buff (scan_one cv2_match frame thr now b)) =
         Some now) as Hone.
  { intros b [->|(tmpl & v & x & y & h & w & _ & _ & _ & _ & _ & ->)]%scan_one_settles.
    - by left.
    - right. split_and!; [done| |done]. by eexists. }
  split.
  - intros b s Hr. subst s. split; [by apply Hone|].
    intros t Ht Hle.
    destruct (Hone b Hr) as [[_ ->]|(_ & _ & ->)].
    + exists t. split_and!; [done| |done]. apply Qle_refl.
    + exists now. split_and!; [done|done|]. apply Qle_refl.
  - intros bs He. destruct (scan_all_completed _ _ _ _ He) as [-> Hall].
    apply Forall_fmap. eapply Forall_impl; [exact Hall|].
    intros b Hr. simpl. unfold settled.
    destruct (Hone b Hr) as [[? _]|(? & ? & _)]; [by left | by right].
Qed.

(** X5. Lowering the threshold never loses a detection: a template that a
    pass activates at some threshold is activated, with the same crop, by
    the pass at any threshold that is not higher. *)
Theorem lower_threshold_keeps_detection (frame : ndarray) (thr thr' now : Q)
    (b : Buff) :
  (thr' <= thr)%Q →
  scan_raised (scan_one cv2_match frame thr now b) = None →
  active (scan_buff (scan_one cv2_match frame thr now b)) = Some true →
  scan_one cv2_match frame thr' now b = scan_one cv2_match frame thr now b.
Proof.
  intros Hle Hr Hact.
  apply scan_one_settles in Hr as H.
  destruct H as [Hd|(tmpl & v & x & y & h & w & Ht & Hs & Hge & Hh & Hw & _)].
  { by rewrite Hd in Hact. }
  unfold scan_one. rewrite Ht, Hs, Hge, Hh, Hw.
  assert (Qle_bool thr' v = true) as ->; [|done].
  apply Qle_bool_iff. apply Qle_bool_iff in Hge. by eapply Qle_trans.
Qed.

End CycleProperties.

(** ** The crop *)

Lemma py_slice_in_range {A} (i j : Z) (l : list A) :
  (0 ≤ i)%Z → (i ≤ j)%Z → (j ≤ Z.of_nat (length l))%Z →
  py_slice i j l = take (Z.to_nat (j - i)) (drop (Z.to_nat i) l).
Proof.
  intros Hi Hij Hj. unfold py_slice, slice_bound.
  destruct (Z.ltb_spec i 0), (Z.ltb_spec j 0); try lia.
  by rewrite !Z.min_l by lia.
Qed.

Lemma py_slice_length_le {A} (i j : Z) (l : list A) :
  (0 ≤ i)%Z → (i ≤ j)%Z →
  length (py_slice i j l) ≤ Z.to_nat (j - i).
Proof.
  intros Hi Hij. unfold py_slice, slice_bound.
  destruct (Z.ltb_spec i 0), (Z.ltb_spec j 0); try lia.
  rewrite length_take, length_drop. lia.
Qed.

Lemma take_drop_lookup {A} (n i k : nat) (l : list A) :
  k < n → take n (drop i l) !! k = l !! (i + k).
Proof. intros Hk. by rewrite lookup_take_lt, lookup_drop. Qed.

(** X6. When the reported location and the recorded size describe a window
    inside a rectangular frame, the crop is that window: it has the
    recorded number of rows and columns and its pixel at row [i], column
    [j] is the pixel of the frame at row [y + i], column [x + j]. *)
Theorem crop_is_the_matched_window (frame : ndarray) (x y w h : Z) :
  rectangular frame →
  (0 ≤ x)%Z → (0 ≤ y)%Z → (0 ≤ w)%Z → (0 ≤ h)%Z →
  (x + w ≤ width frame)%Z → (y + h ≤ height frame)%Z →
  length (crop frame x y w h) = Z.to_nat h ∧
  Forall (λ row, length row = Z.to_nat w) (crop frame x y w h) ∧
  ∀ i j : nat,
    i < Z.to_nat h → j < Z.to_nat w →
    (crop frame x y w h !! i) ≫= (.!! j) =
    ((frame : list (list pixel)) !! (Z.to_nat y + i)) ≫= (.!! (Z.to_nat x + j)).
Proof.
  intros Hrect Hx Hy Hw Hh Hxw Hyh. unfold crop, ndarray in *.
  unfold height, shape in Hyh; simpl in Hyh.
  rewrite (py_slice_in_range y (y + h) frame) by lia.
  replace (y + h - y)%Z with h by lia.
  assert (∀ row : list pixel, row ∈ take (Z.to_nat h) (drop (Z.to_nat y) frame) →
            py_slice x (x + w) row =
              take (Z.to_nat w) (drop (Z.to_nat x) row) ∧
            (x + w ≤ Z.of_nat (length row))%Z) as Hrow.
  { intros row Hin.
    assert (row ∈ (frame : list (list pixel))) as Hin'.
    { apply list_elem_of_lookup in Hin as [k Hk].
      apply lookup_take_Some in Hk as [Hk _]. rewrite lookup_drop in Hk.
      by eapply list_elem_of_lookup_2. }
    unfold rectangular in Hrect. rewrite Forall_forall in Hrect.
    specialize (Hrect row Hin').
    split; [|lia]. rewrite py_slice_in_range by lia. do 2 f_equal. lia. }
  split_and!.
  - rewrite length_fmap, length_take, length_drop. lia.
  - apply Forall_fmap, Forall_forall. intros row Hin. simpl.
    destruct (Hrow row Hin) as [-> Hlen].
    rewrite length_take, length_drop. lia.
  - intros i j Hi Hj. rewrite list_lookup_fmap, take_drop_lookup by done.
    destruct ((frame : list (list pixel)) !! (Z.to_nat y + i)) as [row|] eqn:Hlook;
      [|done].
    simpl. assert (row ∈ take (Z.to_nat h) (drop (Z.to_nat y) frame)) as Hin.
    { apply list_elem_of_lookup. exists i. by rewrite take_drop_lookup. }
    destruct (Hrow row Hin) as [-> _]. by apply take_drop_lookup.
Qed.

(** X7. The crop is cut at the border of the frame instead of failing: for
    a location and a size that are not negative it never has more rows or
    columns than the recorded size, wherever the location lies. *)
Theorem crop_is_clipped (frame : ndarray) (x y w h : Z) :
  (0 ≤ x)%Z → (0 ≤ y)%Z → (0 ≤ w)%Z → (0 ≤ h)%Z →
  length (crop frame x y w h) ≤ Z.to_nat h ∧
  Forall (λ row, length row ≤ Z.to_nat w) (crop frame x y w h) ∧
  ((height frame ≤ y)%Z ∨ (h = 0)%Z → crop frame x y w h = []).
Proof.
  intros Hx Hy Hw Hh. unfold crop. split_and!.
  - rewrite length_fmap.
    etrans; [apply py_slice_length_le; lia|]. lia.
  - apply Forall_fmap, Forall_true. intros row. simpl.
    etrans; [apply py_slice_length_le; lia|]. lia.
  - intros Hout.
    assert (length (py_slice y (y + h) frame) = 0%nat) as Hnil.
    { unfold height, shape in Hout; simpl in Hout.
      unfold py_slice, slice_bound.
      destruct (Z.ltb_spec y 0), (Z.ltb_spec (y + h) 0); try lia.
      rewrite length_take, length_drop. lia. }
    apply nil_length_inv in Hnil. by rewrite Hnil.
Qed.

(** ** The program over any sequence of events *)

Lemma get_buffs_put (bs : list Buff) (c : Config) :
  get_buffs (put_buffs bs c) = if buffs c is Some _ then bs else [].
Proof. unfold get_buffs, put_buffs. by destruct c as [? ? ? ? []]. Qed.

Lemma run_cons cv2_match json_dump (w : World) (ev : event) (evs : list event) :
  run cv2_match json_dump w (ev :: evs) =
    run cv2_match json_dump (step cv2_match json_dump w ev) evs.
Proof. done. Qed.

Lemma on_select_region_app json_dump (events : list gui_event) (a a' : App)
    (d d' : Disk) (e : option exn) :
  on_select_region json_dump events a d = Some (a', d', e) →
  running a' = running a ∧ stop_event a' = stop_event a ∧
  overlay_labels a' = overlay_labels a ∧
  buffs (cfg a') = buffs (cfg a) ∧
  templates_png d' = templates_png d ∧ image_files d' = image_files d.
Proof.
  unfold on_select_region.
  destruct (pick_region_via_drag events) as [[rect|]|]; simpl; [| |done].
  - destruct rect as [|z rect]; simpl; [by intros [= <- <- <-]|].
    unfold save_config. destruct (json_dump _); by intros [= <- <- <-].
  - by intros [= <- <- <-].
Qed.

Section ProgramProperties.

Variable cv2_match : ndarray → ndarray → option (Q * (Z * Z)).
Variable json_dump : Config → dumped.

Lemma step_declaration (w : World) (ev : event) :
  declaration <$> get_buffs (cfg (app (step cv2_match json_dump w ev))) =
  declaration <$> get_buffs (cfg (app w)).
Proof.
  destruct ev as [|gesture|tid g now|]; simpl.
  - unfold toggle_running. destruct (negb (running (app w))); simpl; [done|].
    rewrite get_put_buffs, <- list_fmap_compose. by apply list_fmap_ext.
  - destruct (on_select_region _ _ _ _) as [[[a' d'] e]|] eqn:Hsel; [|done].
    apply on_select_region_app in Hsel as (_ & _ & _ & Hb & _). simpl.
    unfold get_buffs. by rewrite Hb.
  - destruct (threads w !! tid) as [[m| |e]|]; try done.
    unfold monitor_iter.
    destruct (running (app w) && negb (stop_event (app w))); [|done].
    destruct g as [frame| |e]; [|done..].
    pose proof (scan_all_declaration cv2_match frame (thr m) now
                  (get_buffs (cfg (app w)))) as Hdecl.
    destruct (scan_all _ _ _ _ _) as [[bs calls] e]; simpl in *.
    rewrite get_buffs_put. unfold get_buffs in *.
    destruct (buffs (cfg (app w))); [done|].
    simpl in Hdecl. by destruct bs.
  - destruct (overlay w); [|done..].
    destruct (stop_event (app w)); [done|].
    unfold overlay_pass.
    destruct (default _ _) as [|x0 [|y0 [|]]]; try done.
    by destruct (place_labels _ _ _ _ _).
Qed.

(** X8. The catalog is fixed while the program runs: whatever the sequence
    of toggles, selections and loop iterations, the entries keep their
    number, their order, their declared keys, their images and the sizes
    recorded for them. *)
Theorem catalog_is_fixed (w : World) (evs : list event) :
  declaration <$> get_buffs (cfg (app (run cv2_match json_dump w evs))) =
  declaration <$> get_buffs (cfg (app w)).
Proof.
  revert w. induction evs as [|ev evs IH]; intros w; [done|].
  by rewrite run_cons, IH, step_declaration.
Qed.

Lemma step_stopped (w : World) (ev : event) (tid : nat) (t : thread) :
  threads w !! tid = Some t →
  (∀ m, t ≠ Looping m) →
  threads (step cv2_match json_dump w ev) !! tid = Some t ∧
  filter (λ c, c.1 = tid) (captures (step cv2_match json_dump w ev)) =
  filter (λ c, c.1 = tid) (captures w).
Proof.
  intros Ht Hstopped. destruct ev as [|gesture|tid' g now|]; simpl.
  - destruct (toggle_running (app w)) as [a' started]. simpl.
    split; [|done]. destruct started; [|done].
    apply lookup_app_l_Some, Ht.
  - by destruct (on_select_region _ _ _ _) as [[[a' d'] e]|].
  - destruct (threads w !! tid') as [[m| |e]|] eqn:Hm; try done.
    assert (tid' ≠ tid) as Hne.
    { intros ->. rewrite Ht in Hm. injection Hm as ->. by destruct (Hstopped m). }
    assert (filter (λ c, c.1 = tid) (captures w ++ [(tid', region m)]) =
            filter (λ c, c.1 = tid) (captures w)) as Hcap.
    { rewrite filter_app, filter_cons_False by done.
      by rewrite filter_nil, (right_id_L [] (++)). }
    unfold monitor_iter.
    destruct (running (app w) && negb (stop_event (app w))).
    + destruct g as [frame| |e].
      * destruct (scan_all _ _ _ _ _) as [[bs calls] [e|]]; simpl;
          by rewrite ?list_lookup_insert_ne by done.
      * done.
      * simpl. by rewrite list_lookup_insert_ne by done.
    + simpl. by rewrite list_lookup_insert_ne by done.
  - destruct (overlay w); [|done..].
    destruct (stop_event (app w)); [done|].
    by destruct (overlay_pass (app w)) as [a' e].
Qed.

(** A monitor thread that has exited or crashed stays as it is and makes
    no capture request. *)
Lemma run_stopped (w : World) (evs : list event)
    (tid : nat) (t : thread) :
  threads w !! tid = Some t →
  (∀ m, t ≠ Looping m) →
  threads (run cv2_match json_dump w evs) !! tid = Some t ∧
  filter (λ c, c.1 = tid) (captures (run cv2_match json_dump w evs)) =
  filter (λ c, c.1 = tid) (captures w).
Proof.
  revert w. induction evs as [|ev evs IH]; intros w Ht Hstopped; [done|].
  rewrite run_cons.
  destruct (step_stopped w ev tid t Ht Hstopped) as [Ht' Hcap].
  destruct (IH _ Ht' Hstopped) as [Ht'' Hcap'].
  split; [done|]. by rewrite Hcap', Hcap.
Qed.

(** X9. With a configured search region that does not have exactly four
    numbers, a toggle while idle sets [running] but the monitor thread it
    starts dies with [ValueError] before its first capture request; it
    never makes one, whatever happens afterwards. *)
Theorem malformed_region_never_captures (w : World) (evs : list event) :
  running (app w) = false →
  length (default [300; 1000; 1100; 1050]%Z (search_region (cfg (app w)))) ≠ 4 →
  Forall (λ c, c.1 < length (threads w)) (captures w) →
  let tid := length (threads w) in
  let w' := run cv2_match json_dump w (HotkeyToggle :: evs) in
  running (app (step cv2_match json_dump w HotkeyToggle)) = true ∧
  threads w' !! tid = Some (Crashed ValueError) ∧
  ∀ c, c ∈ captures w' → c.1 ≠ tid.
Proof.
  intros Hidle Hlen Hlog. cbv zeta. rewrite run_cons.
  assert (step cv2_match json_dump w HotkeyToggle =
            mkWorld (mkApp (cfg (app w)) true false (overlay_labels (app w)))
              (disk w) (overlay w) (threads w ++ [Crashed ValueError])
              (captures w) (scored w)) as ->.
  { simpl. unfold toggle_running. rewrite Hidle. simpl.
    unfold spawn_monitor, monitor_enter.
    by destruct (default _ _) as [|? [|? [|? [|? [|]]]]]. }
  split; [done|].
  set (w1 := mkWorld _ _ _ _ _ _).
  assert (threads w1 !! length (threads w) = Some (Crashed ValueError)) as Ht.
  { simpl. by rewrite lookup_app_r, Nat.sub_diag. }
  destruct (run_stopped w1 evs _ _ Ht) as [Ht' Hcap]; [done|]. split; [done|].
  intros c Hc Htid.
  assert (c ∈ filter (λ c, c.1 = length (threads w))
                (captures (run cv2_match json_dump w1 evs))) as Hin.
  { by apply list_elem_of_filter. }
  rewrite Hcap in Hin. apply list_elem_of_filter in Hin as [_ Hin].
  simpl in Hin. rewrite Forall_forall in Hlog. specialize (Hlog c Hin). lia.
Qed.

Lemma step_idle (w : World) (ev : event) :
  running (app w) = false →
  (∀ i m, threads w !! i ≠ Some (Looping m)) →
  ev ≠ HotkeyToggle →
  let w' := step cv2_match json_dump w ev in
  running (app w') = false ∧ threads w' = threads w ∧
  captures w' = captures w ∧ scored w' = scored w ∧
  buffs (cfg (app w')) = buffs (cfg (app w)).
Proof.
  intros Hidle Hnone Hev.
  destruct ev as [|gesture|tid g now|]; simpl; [done| | |].
  - destruct (on_select_region _ _ _ _) as [[[a' d'] e]|] eqn:Hsel; [|done].
    apply on_select_region_app in Hsel as (Hr & _ & _ & Hb & _). simpl.
    by rewrite Hr.
  - destruct (threads w !! tid) as [[m| |e]|] eqn:Hm; try done.
    by destruct (Hnone tid m).
  - destruct (overlay w); [|done..].
    destruct (stop_event (app w)); [done|].
    unfold overlay_pass.
    destruct (default _ _) as [|x0 [|y0 [|]]]; try done.
    by destruct (place_labels _ _ _ _ _).
Qed.

(** X10. Once every monitor thread has ended, an idle program stays quiet
    until the next toggle: whatever regions are selected and however often
    the overlay loop runs, no capture request is made, the scorer is not
    called, no thread appears and the records of the catalog stay as they
    are.  A monitor thread that is still alive and evaluates its loop
    condition while the program is idle ends there, without a capture
    request.  (A thread that is past its loop test when the pause arrives
    finishes its cycle first; nothing is said about that cycle.) *)
Theorem idle_is_quiet (w : World) (evs : list event) :
  running (app w) = false →
  HotkeyToggle ∉ evs →
  ((∀ i m, threads w !! i ≠ Some (Looping m)) →
   let w' := run cv2_match json_dump w evs in
   running (app w') = false ∧ threads w' = threads w ∧
   captures w' = captures w ∧ scored w' = scored w ∧
   get_buffs (cfg (app w')) = get_buffs (cfg (app w))) ∧
  (∀ tid m g now,
     threads w !! tid = Some (Looping m) →
     let w1 := step cv2_match json_dump w (MonitorIter tid g now) in
     threads w1 !! tid = Some Exited ∧ captures w1 = captures w ∧
     scored w1 = scored w ∧ app w1 = app w).
Proof.
  intros Hidle Hevs. split.
  - intros Hnone. cbv zeta.
    revert w Hidle Hevs Hnone.
    induction evs as [|ev evs IH]; intros w Hidle Hevs Hnone; [done|].
    apply not_elem_of_cons in Hevs as [Hev Hevs]. rewrite run_cons.
    destruct (step_idle w ev Hidle Hnone (not_eq_sym Hev))
      as (Hr & Ht & Hc & Hs & Hb).
    destruct (IH (step cv2_match json_dump w ev)) as (Hr' & Ht' & Hc' & Hs' & Hb');
      [done | done | by rewrite Ht |].
    split_and!; [done | congruence | congruence | congruence |].
    rewrite Hb'. unfold get_buffs. by rewrite Hb.
  - intros tid m g now Hm. cbv zeta. simpl. rewrite Hm. unfold monitor_iter.
    rewrite Hidle. simpl. split; [|done].
    apply list_lookup_insert_eq. by eapply lookup_lt_Some.
Qed.

Lemma step_overlay_over (w : World) (ev : event) :
  overlay w ≠ Drawing →
  overlay (step cv2_match json_dump w ev) = overlay w ∧
  overlay_labels (app (step cv2_match json_dump w ev)) =
    overlay_labels (app w).
Proof.
  intros Hover. destruct ev as [|gesture|tid g now|]; simpl.
  - unfold toggle_running. by destruct (negb (running (app w))).
  - destruct (on_select_region _ _ _ _) as [[[a' d'] e]|] eqn:Hsel; [|done].
    by apply on_select_region_app in Hsel as (_ & _ & Hl & _).
  - destruct (threads w !! tid) as [[m| |e]|]; try done.
    unfold monitor_iter.
    destruct (running (app w) && negb (stop_event (app w))); [|done].
    destruct g as [frame| |e]; [|done..].
    by destruct (scan_all _ _ _ _ _) as [[bs calls] e].
  - destruct (overlay w) eqn:Ho; [congruence | by rewrite Ho..].
Qed.

(** X11. The overlay loop does not survive a pause: when it evaluates its
    condition while [stop_event] is set it returns, and nothing restarts
    it.  From then on, whatever happens (a resume and new detections
    included), the labels on the overlay stay as they were. *)
Theorem overlay_ends_with_pause (w : World) (evs : list event) :
  stop_event (app w) = true →
  let w' := run cv2_match json_dump w (OverlayIter :: evs) in
  overlay w' ≠ Drawing ∧
  overlay_labels (app w') = overlay_labels (app w).
Proof.
  intros Hstop. cbv zeta. rewrite run_cons.
  assert (overlay (step cv2_match json_dump w OverlayIter) ≠ Drawing ∧
          overlay_labels (app (step cv2_match json_dump w OverlayIter)) =
            overlay_labels (app w)) as [Hover Hlabels].
  { simpl. destruct (overlay w) eqn:Ho; rewrite ?Hstop; simpl; by rewrite ?Ho. }
  rewrite <- Hlabels. clear Hlabels Hstop.
  revert Hover. generalize (step cv2_match json_dump w OverlayIter).
  induction evs as [|ev evs IH]; intros w1 Hover; [done|].
  rewrite run_cons.
  destruct (step_overlay_over w1 ev Hover) as [Ho Hl].
  destruct (IH (step cv2_match json_dump w1 ev)) as [Ho' Hl'];
    [by rewrite Ho|].
  split; [done|]. by rewrite Hl', Hl.
Qed.

Lemma step_disk (w : World) (ev : event) :
  templates_png (disk (step cv2_match json_dump w ev)) =
    templates_png (disk w) ∧
  image_files (disk (step cv2_match json_dump w ev)) = image_files (disk w) ∧
  ((∀ gesture, ev ≠ HotkeySelect gesture) →
   disk (step cv2_match json_dump w ev) = disk w).
Proof.
  destruct ev as [|gesture|tid g now|]; simpl.
  - by destruct (toggle_running (app w)).
  - destruct (on_select_region _ _ _ _) as [[[a' d'] e]|] eqn:Hsel.
    + apply on_select_region_app in Hsel as (_ & _ & _ & _ & Ht & Hi).
      simpl. split_and!; [done..|]. intros H. by destruct (H gesture).
    + split_and!; [done..|]. intros H. by destruct (H gesture).
  - destruct (threads w !! tid) as [[m| |e]|]; try done.
    unfold monitor_iter.
    destruct (running (app w) && negb (stop_event (app w))); [|done].
    destruct g as [frame| |e]; [|done..].
    by destruct (scan_all _ _ _ _ _) as [[bs calls] [e|]].
  - destruct (overlay w); [|done..].
    destruct (stop_event (app w)); [done|].
    by destruct (overlay_pass (app w)) as [a' e].
Qed.

(** X12. After startup only a region selection writes to the file system,
    and it writes the settings file only: toggles, monitor iterations and
    overlay passes leave the file system as it is, and no event changes
    the templates directory or the image files. *)
Theorem only_selection_writes (w : World) (evs : list event) :
  templates_png (disk (run cv2_match json_dump w evs)) =
    templates_png (disk w) ∧
  image_files (disk (run cv2_match json_dump w evs)) = image_files (disk w) ∧
  ((∀ gesture, HotkeySelect gesture ∉ evs) →
   disk (run cv2_match json_dump w evs) = disk w).
Proof.
  revert w. induction evs as [|ev evs IH]; intros w; [done|].
  rewrite run_cons.
  destruct (step_disk w ev) as (Ht & Hi & Hd).
  destruct (IH (step cv2_match json_dump w ev)) as (Ht' & Hi' & Hd').
  split_and!.
  - by rewrite Ht', Ht.
  - by rewrite Hi', Hi.
  - intros Hsel. rewrite Hd', Hd; [done| |].
    + intros gesture ->. apply (Hsel gesture). by left.
    + intros gesture Hin. apply (Hsel gesture). by right.
Qed.

(** X13. A region selected by a drag is the region that the next started
    monitor thread captures: selected while idle it is used from the next
    toggle on, selected while running from the toggle after the pause. *)
Theorem selected_region_used_by_next_start (w : World) (x0 y0 x1 y1 : Z)
    (moves : list (Z * Z)) :
  let select := HotkeySelect (drag x0 y0 moves x1 y1) in
  let m :=
    mkMonitor (Z.min x0 x1, Z.min y0 y1, Z.max x0 x1, Z.max y0 y1)
              (default 0.82%Q (threshold (cfg (app w)))) in
  (running (app w) = false →
   threads (run cv2_match json_dump w [select; HotkeyToggle]) =
     threads w ++ [Looping m]) ∧
  (running (app w) = true →
   threads (run cv2_match json_dump w [select; HotkeyToggle; HotkeyToggle]) =
     threads w ++ [Looping m]).
Proof.
  cbv zeta. unfold run; simpl. unfold on_select_region.
  rewrite pick_region_drag. simpl.
  destruct (save_config _ _ _) as [d' e]. simpl.
  unfold toggle_running; simpl. split; intros ->; simpl; [done|].
  unfold spawn_monitor, monitor_enter, put_buffs. simpl.
  by destruct (buffs (cfg (app w))).
Qed.

End ProgramProperties.

(** ** The overlay pass *)

Lemma cvtColor_BGR2RGB_spec (img : ndarray) :
  ((0 < height img)%Z ∧ (0 < width img)%Z ∧
   cvtColor_BGR2RGB img = Ok (map (map swap_channels) img)) ∨
  (((height img = 0)%Z ∨ (width img = 0)%Z) ∧
   cvtColor_BGR2RGB img = Raise cv2_error).
Proof.
  unfold height, width, shape, cvtColor_BGR2RGB.
  destruct img as [|[|p row] img]; simpl.
  - right. split; [by left | done].
  - right. split; [by right | done].
  - left. split_and!; [lia | lia | done].
Qed.

Lemma place_labels_lookup (x0 y0 : Z) (n : string) (bs : list Buff) :
  ∀ (i : nat) (labels labels' : gmap string Label),
    place_labels x0 y0 i bs labels = (labels', None) →
    labels' !! n = from_option Some (labels !! n) (label_of x0 y0 i bs n).
Proof.
  induction bs as [|b bs IH]; intros i labels labels' Hplace; simpl in *.
  - by injection Hplace as <-.
  - destruct (active b) as [[]|]; try by rewrite (IH _ _ _ Hplace);
      destruct (label_of x0 y0 (S i) bs n).
    destruct (icon_data b) as [[icon|]|]; try by rewrite (IH _ _ _ Hplace);
      destruct (label_of x0 y0 (S i) bs n).
    destruct (cvtColor_BGR2RGB icon) as [tk_img|e]; [|done].
    rewrite (IH _ _ _ Hplace).
    destruct (label_of x0 y0 (S i) bs n); [done|]. simpl.
    destruct (decide (name b = n)) as [->|Hne]; simpl.
    + by rewrite lookup_insert_eq.
    + by rewrite lookup_insert_ne.
Qed.

Lemma label_of_Some (x0 y0 : Z) (n : string) (bs : list Buff) :
  ∀ i lbl, label_of x0 y0 i bs n = Some lbl →
           ∃ b, b ∈ bs ∧ visible b = true ∧ name b = n ∧ place_y lbl = y0.
Proof.
  induction bs as [|b bs IH]; intros i lbl H; simpl in H; [done|].
  destruct (label_of x0 y0 (S i) bs n) as [lbl'|] eqn:Hrest.
  - injection H as <-. destruct (IH _ _ Hrest) as (b' & Hin & ?).
    exists b'. split; [by right | done].
  - destruct (active b) as [[]|] eqn:Hact; try done.
    destruct (icon_data b) as [[icon|]|] eqn:Hicon; try done.
    destruct (cvtColor_BGR2RGB icon); [|done].
    destruct (decide (name b = n)); [|done]. injection H as <-.
    exists b. split_and!; [by left | | done..].
    unfold visible. by rewrite Hact, Hicon.
Qed.

Lemma label_of_None (x0 y0 : Z) (n : string) (bs : list Buff) :
  ∀ i, Forall drawable bs →
       label_of x0 y0 i bs n = None →
       ∀ b, b ∈ bs → visible b = true → name b ≠ n.
Proof.
  induction bs as [|b bs IH]; intros i Hdraw H b' Hin Hvis.
  { by apply elem_of_nil in Hin. }
  apply Forall_cons in Hdraw as [Hb Hdraw]. simpl in H.
  destruct (label_of x0 y0 (S i) bs n) eqn:Hrest; [done|].
  apply elem_of_cons in Hin as [->|Hin]; [|by eapply IH].
  pose proof Hvis as Hvis'. unfold visible in Hvis'.
  destruct (active b) as [[]|]; try done.
  destruct (icon_data b) as [[icon|]|] eqn:Hicon; try done.
  destruct (cvtColor_BGR2RGB_spec icon) as [(_ & _ & Hok)|[Hempty _]].
  - rewrite Hok in H. by destruct (decide (name b = n)).
  - destruct (Hb Hvis icon) as [? ?]; [done|]. lia.
Qed.

Lemma place_labels_completes (x0 y0 : Z) (bs : list Buff) :
  ∀ (i : nat) (labels : gmap string Label),
    ((place_labels x0 y0 i bs labels).2 = None ∨
     (place_labels x0 y0 i bs labels).2 = Some cv2_error) ∧
    ((place_labels x0 y0 i bs labels).2 = None ↔ Forall drawable bs).
Proof.
  induction bs as [|b bs IH]; intros i labels; simpl.
  { split; [by left|]. split; [by constructor | done]. }
  assert (visible b = false → drawable b) as Hinv by (unfold drawable; congruence).
  assert (∀ P, visible b = false → (P ↔ Forall drawable bs) →
               (P ↔ Forall drawable (b :: bs))) as Hskip.
  { intros P Hv ->. rewrite Forall_cons. split; [by split; auto | by intros [_ ?]]. }
  unfold visible in Hinv, Hskip.
  destruct (active b) as [[]|] eqn:Hact;
    try (split; [apply IH | apply Hskip; [done | apply IH]]).
  destruct (icon_data b) as [[icon|]|] eqn:Hicon;
    try (split; [apply IH | apply Hskip; [done | apply IH]]).
  destruct (cvtColor_BGR2RGB_spec icon) as [(Hh & Hw & ->)|[Hempty ->]].
  - split; [apply IH|]. rewrite Forall_cons.
    destruct (IH (S i) (<[name b := mkLabel (map (map swap_channels) icon)
                                      (x0 + Z.of_nat i * spacing) y0]> labels))
      as [_ ->].
    split; [|by intros [_ ?]]. intros Hbs. split; [|done].
    intros _ icon' Hicon'. rewrite Hicon in Hicon'. by injection Hicon' as <-.
  - simpl. split; [by right|]. split; [done|].
    intros [Hb _]%Forall_cons.
    destruct (Hb) with icon as [? ?]; [|done|lia].
    unfold visible. by rewrite Hact, Hicon.
Qed.

Lemma overlay_pass_labels (a a' : App) (x0 y0 : Z) :
  overlay_pass a = (a', None) →
  default [100; 100]%Z (overlay_pos (cfg a)) = [x0; y0] →
  a' = set_overlay_labels (overlay_labels a') a ∧
  ∀ n : string,
    (is_Some (overlay_labels a' !! n) ↔
     ∃ b, b ∈ get_buffs (cfg a) ∧ visible b = true ∧ name b = n) ∧
    (∀ lbl, overlay_labels a' !! n = Some lbl → place_y lbl = y0).
Proof.
  unfold overlay_pass. intros Hpass Hpos. rewrite Hpos in Hpass.
  destruct (place_labels _ _ _ _ _) as [labels e] eqn:Hplace.
  injection Hpass as <- ->. split; [done|]. intros n. simpl.
  rewrite (place_labels_lookup _ _ n _ _ _ _ Hplace).
  assert (Forall drawable (get_buffs (cfg a))) as Hdraw.
  { apply (place_labels_completes x0 y0 (get_buffs (cfg a)) 0
             (filter (λ kv, kv.1 ∈ name <$> filter (λ b, visible b = true)
                                     (get_buffs (cfg a)))
                     (overlay_labels a))).
    by rewrite Hplace. }
  destruct (label_of x0 y0 0 (get_buffs (cfg a)) n) as [lbl|] eqn:Hlbl; simpl.
  - destruct (label_of_Some _ _ _ _ _ _ Hlbl) as (b & Hin & Hvis & Hname & Hy).
    split; [|by intros ? [= <-]]. split; [by exists b | by eexists].
  - pose proof (label_of_None _ _ _ _ _ Hdraw Hlbl) as Hnone.
    assert (filter (λ kv, kv.1 ∈ name <$> filter (λ b, visible b = true)
                                   (get_buffs (cfg a)))
                   (overlay_labels a) !! n = None) as ->.
    { apply map_lookup_filter_None. right. intros lbl _ Hin. simpl in Hin.
      apply list_elem_of_fmap in Hin as (b & -> & [Hvis Hb]%list_elem_of_filter).
      by apply (Hnone b). }
    split; [|done]. split; [by intros [? ?]|].
    intros (b & Hin & Hvis & Hname). by destruct (Hnone b).
Qed.

(** X14. A pass of the overlay loop that runs to its end changes nothing but
    the labels, and afterwards there is a label for a name exactly when a
    template of that name is active and has a crop: labels of templates that
    are no longer active are gone, and every label sits in the row of the
    overlay position. *)
Theorem overlay_shows_the_active (a a' : App) (x0 y0 : Z) :
  overlay_pass a = (a', None) →
  default [100; 100]%Z (overlay_pos (cfg a)) = [x0; y0] →
  a' = set_overlay_labels (overlay_labels a') a ∧
  ∀ n : string,
    (is_Some (overlay_labels a' !! n) ↔
     ∃ b, b ∈ get_buffs (cfg a) ∧ visible b = true ∧ name b = n) ∧
    (∀ lbl, overlay_labels a' !! n = Some lbl → place_y lbl = y0).
Proof. apply overlay_pass_labels. Qed.


(** X16. A second pass of the overlay loop over unchanged records changes
    nothing: it runs to its end as the first did and leaves every label
    with the image and at the place it had, so labels do not move between
    passes. *)
Theorem overlay_pass_is_stable (a a' : App) :
  overlay_pass a = (a', None) → overlay_pass a' = (a', None).
Proof.
  unfold overlay_pass. intros Hpass.
  destruct (default _ _) as [|x0 [|y0 [|]]] eqn:Hpos; try done;
    try by destruct (place_labels _ _ _ _ _).
  destruct (place_labels _ _ _ _ _) as [labels e] eqn:Hplace.
  injection Hpass as <- ->. simpl. rewrite Hpos.
  set (bs := get_buffs (cfg a)) in *.
  set (P := λ kv : string * Label,
              kv.1 ∈ name <$> filter (λ b, visible b = true) bs) in *.
  assert (Forall drawable bs) as Hdraw.
  { apply (place_labels_completes x0 y0 bs 0 (filter P (overlay_labels a))).
    by rewrite Hplace. }
  destruct (place_labels x0 y0 0 bs (filter P labels)) as [labels' e'] eqn:Hplace'.
  assert (e' = None) as ->.
  { apply (place_labels_completes x0 y0 bs 0 (filter P labels)) in Hdraw.
    by rewrite Hplace' in Hdraw. }
  assert (labels' = labels) as ->; [|done].
  apply map_eq. intros n.
  rewrite (place_labels_lookup _ _ n _ _ _ _ Hplace'),
          (place_labels_lookup _ _ n _ _ _ _ Hplace).
  destruct (label_of x0 y0 0 bs n) as [lbl|] eqn:Hlbl; [done|]. simpl.
  pose proof (label_of_None _ _ _ _ _ Hdraw Hlbl) as Hnone.
  assert (∀ m : gmap string Label, filter P m !! n = None) as Hfilter.
  { intros m. apply map_lookup_filter_None. right. intros lbl _ Hin.
    unfold P in Hin. simpl in Hin.
    apply list_elem_of_fmap in Hin as (b & -> & [Hvis Hb]%list_elem_of_filter).
    by apply (Hnone b). }
  by rewrite !Hfilter.
Qed.

(** ** The region picker, for any gesture *)

Lemma mainloop_keeps_open (pre rest : list gui_event) :
  Forall keeps_open pre →
  ∀ p, ∃ p', result_rect p' = result_rect p ∧
             mainloop (pre ++ rest) p = mainloop rest p'.
Proof.
  induction 1 as [|ev pre Hev Hpre IH]; intros p; [by exists p|].
  destruct ev as [x y|x y| |]; try done; simpl.
  - destruct (IH (on_button_press x y p)) as (p' & Hr & Heq). by exists p'.
  - destruct (IH (on_move x y p)) as (p' & Hr & Heq). exists p'.
    split; [|done]. rewrite Hr. unfold on_move. by destruct (start p).
Qed.

(** X17. The picked region depends on two events only: the last press
    before the first release, and that release.  Earlier presses, every
    motion and whatever follows the release are ignored; a release that no
    press precedes is measured from the origin [(0, 0)]. *)
Theorem picker_uses_last_press_first_release
    (pre rest : list gui_event) (moves : list (Z * Z)) (x0 y0 x1 y1 : Z) :
  Forall keeps_open pre →
  pick_region_via_drag
    (pre ++ ButtonPress x0 y0 :: (uncurry Motion <$> moves) ++
            ButtonRelease x1 y1 :: rest) =
    Some (Some [Z.min x0 x1; Z.min y0 y1; Z.max x0 x1; Z.max y0 y1]) ∧
  pick_region_via_drag
    ((uncurry Motion <$> moves) ++ ButtonRelease x1 y1 :: rest) =
    Some (Some [Z.min 0 x1; Z.min 0 y1; Z.max 0 x1; Z.max 0 y1]).
Proof.
  intros Hpre. unfold pick_region_via_drag. split.
  - destruct (mainloop_keeps_open pre
                (ButtonPress x0 y0 :: (uncurry Motion <$> moves) ++
                   ButtonRelease x1 y1 :: rest) Hpre
                (mkPicker None (0, 0)%Z None)) as (p' & _ & ->).
    cbn [mainloop].
    destruct (mainloop_motions moves (ButtonRelease x1 y1 :: rest)
                (on_button_press x0 y0 p')) as (p'' & Hs & _ & ->).
    cbn [mainloop fmap option_fmap option_map].
    by rewrite on_button_release_rect, Hs.
  - destruct (mainloop_motions moves (ButtonRelease x1 y1 :: rest)
                (mkPicker None (0, 0)%Z None)) as (p'' & Hs & _ & ->).
    cbn [mainloop fmap option_fmap option_map].
    by rewrite on_button_release_rect, Hs.
Qed.

(** X18. Escape cancels whatever was pressed or dragged before it, and what
    follows it is ignored; as long as neither a release nor Escape arrives
    the picker does not return. *)
Theorem picker_cancel_and_wait (pre rest : list gui_event) :
  Forall keeps_open pre →
  pick_region_via_drag (pre ++ Escape :: rest) = Some None ∧
  pick_region_via_drag pre = None.
Proof.
  intros Hpre. unfold pick_region_via_drag. split.
  - destruct (mainloop_keeps_open pre (Escape :: rest) Hpre
                (mkPicker None (0, 0)%Z None)) as (p' & Hr & ->).
    cbn [mainloop fmap option_fmap option_map]. unfold on_esc.
    by rewrite Hr.
  - destruct (mainloop_keeps_open pre [] Hpre
                (mkPicker None (0, 0)%Z None)) as (p' & _ & Heq).
    rewrite (right_id_L [] (++)) in Heq. by rewrite Heq.
Qed.

(** ** Saving and loading the settings *)

Section SettingsProperties.

Variable json_load : string → option Config.
Variable json_dump : Config → dumped.

(** X19. What [save_config] wrote is what [load_config] reads next, without
    writing: when the serializer completes and the decoder inverts it the
    saved configuration comes back; when the serializer raised and the
    prefix it left does not decode, loading raises. *)
Theorem load_after_save (c : Config) (d : Disk) :
  let d' := (save_config json_dump c d).1 in
  (∀ text, json_dump c = Dumped text → json_load text = Some c →
           load_config json_load json_dump d' = (d', Ok c)) ∧
  (∀ partial e, json_dump c = DumpRaised partial e →
                json_load partial = None →
                load_config json_load json_dump d' =
                  (d', Raise JSONDecodeError)).
Proof.
  cbv zeta. unfold save_config, load_config. split.
  - intros text -> Hload. simpl. by rewrite Hload.
  - intros partial e -> Hload. simpl. by rewrite Hload.
Qed.

(** X20. Loading the settings touches the file system at most once: after
    any call of [load_config] the settings file exists, and a further call
    leaves the file system as it is. *)
Theorem load_config_writes_once (d : Disk) :
  let d' := (load_config json_load json_dump d).1 in
  is_Some (config_json d') ∧
  (load_config json_load json_dump d').1 = d'.
Proof.
  cbv zeta.
  assert (∀ d0, is_Some (config_json d0) →
                (load_config json_load json_dump d0).1 = d0) as Hread.
  { intros d0 [text Htext]. unfold load_config. rewrite Htext.
    by destruct (json_load text). }
  assert (is_Some (config_json (load_config json_load json_dump d).1)) as Hex.
  { unfold load_config. destruct (config_json d) as [text|] eqn:Htext.
    - destruct (json_load text); simpl; by rewrite Htext.
    - unfold save_config. by destruct (json_dump _). }
  split; [done | by apply Hread].
Qed.

(** X21. When the serializer raises while a selected region is saved and
    the prefix it wrote does not decode, the region is selected in memory
    but the settings file is left cut short, and the next startup of the
    program fails with the decoder's error. *)
Theorem failed_save_breaks_next_start (events : list gui_event) (a : App)
    (d : Disk) (rect : list Z) (partial : string) (e : exn) :
  pick_region_via_drag events = Some (Some rect) →
  json_dump (set_search_region rect (cfg a)) = DumpRaised partial e →
  json_load partial = None →
  ∃ a' d',
    on_select_region json_dump events a d = Some (a', d', Some e) ∧
    search_region (cfg a') = Some rect ∧
    config_json d' = Some partial ∧
    startup json_load json_dump d' = Raise JSONDecodeError.
Proof.
  intros Hpick Hdump Hload. unfold on_select_region. rewrite Hpick.
  apply pick_region_shape in Hpick as (? & ? & ? & ? & ->). simpl.
  unfold save_config. simpl. rewrite Hdump. eexists _, _.
  split_and!; [done..|].
  unfold startup, load_config. simpl. by rewrite Hload.
Qed.

End SettingsProperties.

(** ** The style of the overlay window *)

Lemma flag_bits (n : Z) :
  (0 ≤ n)%Z →
  Z.testbit WS_EX_LAYERED n = bool_decide (n = 19%Z) ∧
  Z.testbit WS_EX_TRANSPARENT n = bool_decide (n = 5%Z) ∧
  Z.testbit WS_EX_TOPMOST n = bool_decide (n = 3%Z).
Proof.
  intros Hn.
  change WS_EX_LAYERED with (2 ^ 19)%Z.
  change WS_EX_TRANSPARENT with (2 ^ 5)%Z.
  change WS_EX_TOPMOST with (2 ^ 3)%Z.
  rewrite !Z.pow2_bits_eqb by lia.
  split_and!; case_bool_decide; lia.
Qed.

(** X22. The style passed to [SetWindowLongW] has the layered, transparent
    and topmost bits set and agrees with the style read before on every
    other bit; a window that has the three bits keeps its style. *)
Theorem clickthrough_sets_three_bits (exStyle : Z) :
  (∀ n, (0 ≤ n)%Z →
        Z.testbit (make_window_clickthrough exStyle) n =
          if bool_decide (n = 3 ∨ n = 5 ∨ n = 19)%Z then true
          else Z.testbit exStyle n) ∧
  make_window_clickthrough (make_window_clickthrough exStyle) =
    make_window_clickthrough exStyle.
Proof.
  assert (∀ s n, (0 ≤ n)%Z →
            Z.testbit (make_window_clickthrough s) n =
              if bool_decide (n = 3 ∨ n = 5 ∨ n = 19)%Z then true
              else Z.testbit s n) as Hbits.
  { intros s n Hn. unfold make_window_clickthrough. rewrite !Z.lor_spec.
    destruct (flag_bits n Hn) as (-> & -> & ->).
    repeat case_bool_decide; try lia; by rewrite ?orb_true_r, ?orb_false_r. }
  split; [by apply Hbits|].
  apply Z.bits_inj'. intros n Hn. rewrite !Hbits by done.
  by case_bool_decide.
Qed.

(** ** Loading the templates and starting up *)

Lemma load_template_sized (d : Disk) (b : Buff) : sized (load_template d b).
Proof.
  unfold load_template, sized.
  destruct (image_files d !! file b) as [[img|]|]; simpl; [|done..].
  by intros ? [= <-].
Qed.

(** X23. [load_templates] keeps every declared entry, in order and with its
    declared keys, and changes nothing else in the configuration.  An entry
    whose image file is missing or does not decode stays in the catalog
    with its template set to [None]; an entry whose image loads gets the
    image, its numbers of rows and columns as recorded size, an inactive
    record without crop and the last-seen time 0. *)
Theorem load_templates_outcome (d : Disk) (c : Config) :
  let c' := load_templates d c in
  (search_region c', overlay_pos c', threshold c', hotkeys c') =
    (search_region c, overlay_pos c, threshold c, hotkeys c) ∧
  (λ b, (name b, file b, refreshable b, duration b)) <$> get_buffs c' =
    (λ b, (name b, file b, refreshable b, duration b)) <$> get_buffs c ∧
  Forall (λ b',
            match image_files d !! file b' with
            | Some (Some img) =>
                template b' = Some (Some img) ∧
                t_h b' = Some (height img) ∧ t_w b' = Some (width img) ∧
                cleared b' ∧ last_seen b' = Some 0%Q
            | _ => template b' = Some None
            end) (get_buffs c').
Proof.
  cbv zeta. unfold load_templates. rewrite get_put_buffs. split_and!.
  - unfold put_buffs. by destruct c as [? ? ? ? []].
  - rewrite <- list_fmap_compose. apply list_fmap_ext. intros _ b _. simpl.
    unfold load_template. by destruct (image_files d !! file b) as [[img|]|].
  - apply Forall_fmap, Forall_true. intros b. simpl.
    assert (file (load_template d b) = file b) as ->.
    { unfold load_template. by destruct (image_files d !! file b) as [[img|]|]. }
    unfold load_template.
    by destruct (image_files d !! file b) as [[img|]|].
Qed.

Section StartupProperties.

Variable cv2_match : ndarray → ndarray → option (Q * (Z * Z)).
Variable json_load : string → option Config.
Variable json_dump : Config → dumped.

Lemma declarations_sized (bs bs' : list Buff) :
  declaration <$> bs' = declaration <$> bs →
  Forall sized bs → Forall sized bs'.
Proof.
  revert bs'. induction bs as [|b bs IH]; intros [|b' bs'] Hdecl Hbs;
    try done.
  rewrite !fmap_cons in Hdecl.
  assert (declaration b' = declaration b) as Hb by congruence.
  assert (declaration <$> bs' = declaration <$> bs) as Hrest by congruence.
  apply Forall_cons in Hbs as [Hb0 Hbs].
  constructor; [exact (declaration_sized b b' Hb Hb0) | by apply IH].
Qed.

Lemma step_sized (w : World) (ev : event) :
  Forall sized (get_buffs (cfg (app w))) →
  Forall sized (get_buffs (cfg (app (step cv2_match json_dump w ev)))).
Proof.
  apply declarations_sized, step_declaration.
Qed.

Lemma step_no_key_error (w : World) (ev : event) (key : string) :
  Forall sized (get_buffs (cfg (app w))) →
  (∀ tid now, ev ≠ MonitorIter tid (GrabRaised (KeyError key)) now) →
  (∀ tid, threads w !! tid ≠ Some (Crashed (KeyError key))) →
  ∀ tid, threads (step cv2_match json_dump w ev) !! tid ≠
           Some (Crashed (KeyError key)).
Proof.
  intros Hsized Hev Hold tid.
  assert (∀ tid' t, t ≠ Crashed (KeyError key) →
            <[tid' := t]> (threads w) !! tid ≠ Some (Crashed (KeyError key)))
    as Hins.
  { intros tid' t Ht Hlook.
    apply list_lookup_insert_Some in Hlook as [(-> & -> & _)|(_ & Hlook)];
      [done | by apply (Hold tid)]. }
  destruct ev as [|gesture|tid' g now|]; simpl.
  - destruct (toggle_running (app w)) as [a' started]. simpl.
    destruct started; [|apply Hold].
    intros [Hlook|[_ Hlook]]%lookup_app_Some; [by apply (Hold tid)|].
    destruct (tid - length (threads w)) as [|k]; [|done].
    unfold spawn_monitor, monitor_enter in Hlook.
    by destruct (default _ _) as [|? [|? [|? [|? [|]]]]].
  - destruct (on_select_region _ _ _ _) as [[[a' d'] e]|]; apply Hold.
  - destruct (threads w !! tid') as [[m| |e]|] eqn:Hm; try apply Hold.
    unfold monitor_iter.
    destruct (running (app w) && negb (stop_event (app w))).
    + destruct g as [frame| |e].
      * destruct (scan_all_sized_raised cv2_match frame (thr m) now _ Hsized)
          as [Hcases _].
        destruct (scan_all _ _ _ _ _) as [[bs calls] [e|]]; simpl in *;
          [|apply Hold].
        apply Hins. destruct Hcases as [|[= ->]]; done.
      * apply Hold.
      * simpl. apply Hins. intros [= ->]. by apply (Hev tid' now).
    + simpl. by apply Hins.
  - destruct (overlay w); try apply Hold.
    destruct (stop_event (app w)); [apply Hold|].
    destruct (overlay_pass (app w)) as [a' e]. apply Hold.
Qed.

(** X24. In a program that was started by [startup], whatever the settings
    file declared and whatever happens afterwards, the size recorded for a
    loaded template stays the size of its image, and no monitor thread
    dies of a missing key, unless [camera.grab] itself raises that error. *)
Theorem no_thread_dies_of_missing_key (d : Disk) (w : World)
    (evs : list event) (key : string) :
  startup json_load json_dump d = Ok w →
  (∀ tid now, MonitorIter tid (GrabRaised (KeyError key)) now ∉ evs) →
  let w' := run cv2_match json_dump w evs in
  Forall sized (get_buffs (cfg (app w'))) ∧
  ∀ tid, threads w' !! tid ≠ Some (Crashed (KeyError key)).
Proof.
  intros Hstart Hevs. cbv zeta.
  assert (Forall sized (get_buffs (cfg (app w))) ∧
          ∀ tid, threads w !! tid ≠ Some (Crashed (KeyError key))) as Hinit.
  { unfold startup in Hstart.
    destruct (load_config _ _ _) as [d' [c|e]]; [|done].
    injection Hstart as <-. simpl. split; [|done].
    unfold load_templates. rewrite get_put_buffs.
    apply Forall_fmap, Forall_true. apply load_template_sized. }
  clear Hstart. revert w Hinit Hevs.
  induction evs as [|ev evs IH]; intros w [Hsized Hthreads] Hevs; [done|].
  rewrite run_cons. apply IH.
  - split; [by apply step_sized|].
    apply step_no_key_error; [done| |done].
    intros tid now ->. apply (Hevs tid now). by left.
  - intros tid now Hin. apply (Hevs tid now). by right.
Qed.

End StartupProperties.

(** ** A monitor cycle followed by an overlay pass *)

Section EndToEnd.

Variable cv2_match : ndarray → ndarray → option (Q * (Z * Z)).
Variable json_dump : Config → dumped.

Lemma scan_one_visible (frame : ndarray) (thr now : Q) (b : Buff) :
  scan_raised (scan_one cv2_match frame thr now b) = None →
  name (scan_buff (scan_one cv2_match frame thr now b)) = name b ∧
  (visible (scan_buff (scan_one cv2_match frame thr now b)) = true ↔
   ∃ tmpl max_val loc,
     template b = Some (Some tmpl) ∧
     cv2_match frame tmpl = Some (max_val, loc) ∧
     Qle_bool thr max_val = true).
Proof.
  unfold scan_one.
  destruct (template b) as [[tmpl|]|];
    [|split; [done|]; split; [done | by intros (? & ? & ? & ? & _)]..].
  destruct (cv2_match frame tmpl) as [[max_val [x y]]|] eqn:Hs; [|done].
  destruct (Qle_bool thr max_val) eqn:Hge.
  - destruct (t_h b) as [h|], (t_w b) as [w|]; try done.
    intros _. split; [done|]. split; [|done].
    intros _. by exists tmpl, max_val, (x, y).
  - intros _. split; [done|]. split; [done|].
    intros (tmpl' & v & loc & [= <-] & Hs' & Hge').
    rewrite Hs in Hs'. injection Hs' as <- <-. congruence.
Qed.

(** X25. When a monitor iteration with a frame and the overlay pass after it
    both run to their end, the overlay shows a label for a name exactly
    when a loaded template of that name scored at least the threshold of
    the monitor thread on that frame. *)
Theorem detected_templates_are_shown (w : World) (tid : nat) (m : Monitor)
    (frame : ndarray) (now : Q) :
  threads w !! tid = Some (Looping m) →
  running (app w) = true →
  stop_event (app w) = false →
  overlay w = Drawing →
  let w' :=
    run cv2_match json_dump w [MonitorIter tid (Frame frame) now; OverlayIter] in
  threads w' !! tid = Some (Looping m) →
  overlay w' = Drawing →
  ∀ n : string,
    is_Some (overlay_labels (app w') !! n) ↔
    ∃ b tmpl max_val loc,
      b ∈ get_buffs (cfg (app w)) ∧ name b = n ∧
      template b = Some (Some tmpl) ∧
      cv2_match frame tmpl = Some (max_val, loc) ∧
      Qle_bool (thr m) max_val = true.
Proof.
  intros Hm Hrun Hstop Hover. cbv zeta. unfold run; simpl.
  rewrite Hm. unfold monitor_iter. rewrite Hrun, Hstop. simpl.
  pose proof (scan_all_completed cv2_match frame (thr m) now
                (get_buffs (cfg (app w)))) as Hdone.
  destruct (scan_all _ _ _ _ _) as [[bs calls] e]. simpl in Hdone.
  destruct e as [e|]; simpl.
  { rewrite Hover, Hstop.
    destruct (overlay_pass _) as [a2 e2]. simpl.
    rewrite list_lookup_insert_eq by by eapply lookup_lt_Some. done. }
  destruct Hdone as [-> Hall]; [done|].
  rewrite Hover, Hstop.
  destruct (overlay_pass _) as [a2 e2] eqn:Hpass. simpl.
  intros _ He2. destruct e2; [done|].
  destruct (default [100; 100]%Z
              (overlay_pos (put_buffs
                 ((λ b, scan_buff (scan_one cv2_match frame (thr m) now b)) <$>
                    get_buffs (cfg (app w))) (cfg (app w)))))
    as [|x0 [|y0 [|]]] eqn:Hpos;
    try (unfold overlay_pass in Hpass; simpl in Hpass; rewrite Hpos in Hpass;
         done).
  destruct (overlay_pass_labels _ _ x0 y0 Hpass Hpos) as [_ Hlabels].
  intros n. rewrite (proj1 (Hlabels n)). simpl. rewrite get_put_buffs.
  rewrite Forall_forall in Hall. split.
  - intros (b' & Hin & Hvis & Hname).
    apply list_elem_of_fmap in Hin as (b & -> & Hin).
    destruct (scan_one_visible frame (thr m) now b (Hall b Hin))
      as [Hn Hiff].
    apply Hiff in Hvis as (tmpl & max_val & loc & ? & ? & ?).
    exists b, tmpl, max_val, loc. split_and!; try done. congruence.
  - intros (b & tmpl & max_val & loc & Hin & Hname & Ht & Hs & Hge).
    destruct (scan_one_visible frame (thr m) now b (Hall b Hin))
      as [Hn Hiff].
    exists (scan_buff (scan_one cv2_match frame (thr m) now b)).
    split_and!.
    + apply list_elem_of_fmap. by exists b.
    + apply Hiff. by exists tmpl, max_val, loc.
    + congruence.
Qed.

End EndToEnd.

(** ** The further properties at the sample data *)

Lemma cycle_raises_only_with_scorer_witness :
  Forall sized [haste; shield] ∧
  (scan_all (constant_match 1 (1, 1)%Z) frame_3x4 0.82 5 [haste; shield]).2 =
    None ∧
  (∀ tmpl, tmpl ∈ loaded_images [haste; shield] →
           constant_match 1 (1, 1)%Z frame_3x4 tmpl ≠ None).
Proof.
  assert (Forall sized [haste; shield]) as Hsized.
  { repeat (apply Forall_cons; split;
              [intros img Himg; simpl in Himg;
               first [discriminate | by injection Himg as <-]|]).
    constructor. }
  split; [exact Hsized|]. split; [reflexivity|].
  apply (cycle_raises_only_with_scorer (constant_match 1 (1, 1)%Z)
           frame_3x4 0.82 5 [haste; shield] Hsized).
  reflexivity.
Defined.

Lemma cycle_scores_every_template_witness :
  (scan_all (constant_match 1 (1, 1)%Z) frame_3x4 0.82 5
     [shield; haste; shield]).2 = None ∧
  (scan_all (constant_match 1 (1, 1)%Z) frame_3x4 0.82 5
     [shield; haste; shield]).1.2 =
    [(frame_3x4, icon_shield); (frame_3x4, icon_shield)].
Proof.
  split; [reflexivity|].
  apply (cycle_scores_every_template (constant_match 1 (1, 1)%Z)
           frame_3x4 0.82 5 [shield; haste; shield]).
  reflexivity.
Defined.


Lemma pass_settles_record_witness :
  scan_raised (scan_one (constant_match 1 (1, 1)%Z) frame_3x4 0.82 21
                 shield_seen) = None ∧
  last_seen shield_seen = Some 17%Q ∧ (17 <= 21)%Q ∧
  ∃ t', last_seen (scan_buff (scan_one (constant_match 1 (1, 1)%Z) frame_3x4
                                0.82 21 shield_seen)) = Some t' ∧
        (17 <= t')%Q ∧ (t' <= 21)%Q.
Proof.
  split; [reflexivity|]. split; [reflexivity|]. split; [done|].
  apply (proj1 (pass_settles_record (constant_match 1 (1, 1)%Z) frame_3x4
                  0.82 21) shield_seen);
    [reflexivity | reflexivity | done].
Defined.

Lemma lower_threshold_keeps_detection_witness :
  (0.5 <= 0.82)%Q ∧
  active (scan_buff (scan_one (constant_match 0.9 (1, 1)%Z) frame_3x4 0.82 5
                       shield)) = Some true ∧
  scan_one (constant_match 0.9 (1, 1)%Z) frame_3x4 0.5 5 shield =
  scan_one (constant_match 0.9 (1, 1)%Z) frame_3x4 0.82 5 shield.
Proof.
  split; [done|]. split; [reflexivity|].
  apply (lower_threshold_keeps_detection (constant_match 0.9 (1, 1)%Z)
           frame_3x4 0.82 0.5 5 shield); [done | reflexivity | reflexivity].
Defined.

Lemma crop_is_the_matched_window_witness :
  rectangular frame_3x4 ∧
  crop frame_3x4 1 1 2 2 = icon_shield ∧
  length (crop frame_3x4 1 1 2 2) = 2%nat ∧
  Forall (λ row, length row = 2%nat) (crop frame_3x4 1 1 2 2).
Proof.
  assert (rectangular frame_3x4) as Hrect by (repeat constructor).
  split; [exact Hrect|]. split; [reflexivity|].
  destruct (crop_is_the_matched_window frame_3x4 1 1 2 2 Hrect)
    as (Hlen & Hrows & _); [lia | lia | lia | lia | | | done].
  - unfold width, shape; simpl. lia.
  - unfold height, shape; simpl. lia.
Defined.

Lemma crop_is_clipped_witness :
  crop frame_1x1 0 0 2 2 = frame_1x1 ∧
  length (crop frame_1x1 0 0 2 2) ≤ 2 ∧
  crop frame_1x1 0 5 2 2 = [].
Proof.
  split; [reflexivity|].
  destruct (crop_is_clipped frame_1x1 0 0 2 2) as (Hlen & _ & _);
    [lia | lia | lia | lia |].
  split; [exact Hlen|].
  apply (crop_is_clipped frame_1x1 0 5 2 2); [lia | lia | lia | lia |].
  left. unfold height, shape; simpl. lia.
Defined.

Lemma malformed_region_never_captures_witness :
  running (app short_region_world) = false ∧
  threads (run (constant_match 1 (1, 1)%Z) dump_region short_region_world
             [HotkeyToggle; MonitorIter 0 (Frame frame_3x4) 5]) !! 0%nat =
    Some (Crashed ValueError) ∧
  ∀ c,
    c ∈ captures (run (constant_match 1 (1, 1)%Z) dump_region
                    short_region_world
                    [HotkeyToggle; MonitorIter 0 (Frame frame_3x4) 5]) →
    c.1 ≠ 0%nat.
Proof.
  split; [reflexivity|].
  apply (malformed_region_never_captures (constant_match 1 (1, 1)%Z)
           dump_region short_region_world
           [MonitorIter 0 (Frame frame_3x4) 5]);
    [reflexivity | simpl; lia | constructor].
Defined.

Lemma idle_is_quiet_witness :
  running (app paused_world) = false ∧
  threads paused_world = [Exited] ∧
  captures (run (constant_match 1 (1, 1)%Z) dump_region paused_world
              [MonitorIter 0 (Frame frame_3x4) 5; OverlayIter;
               HotkeySelect (drag 1 2 [] 3 4)]) = [] ∧
  get_buffs (cfg (app (run (constant_match 1 (1, 1)%Z) dump_region paused_world
                         [MonitorIter 0 (Frame frame_3x4) 5; OverlayIter;
                          HotkeySelect (drag 1 2 [] 3 4)]))) =
    [deactivate haste; deactivate shield_seen] ∧
  running (app (step (constant_match 1 (1, 1)%Z) dump_region monitoring_world
                  HotkeyToggle)) = false ∧
  threads (step (constant_match 1 (1, 1)%Z) dump_region
             (step (constant_match 1 (1, 1)%Z) dump_region monitoring_world
                HotkeyToggle)
             (MonitorIter 0 (Frame frame_3x4) 5)) !! 0%nat = Some Exited ∧
  captures (step (constant_match 1 (1, 1)%Z) dump_region
              (step (constant_match 1 (1, 1)%Z) dump_region monitoring_world
                 HotkeyToggle)
              (MonitorIter 0 (Frame frame_3x4) 5)) = [].
Proof.
  split; [reflexivity|]. split; [reflexivity|].
  destruct (idle_is_quiet (constant_match 1 (1, 1)%Z) dump_region paused_world
              [MonitorIter 0 (Frame frame_3x4) 5; OverlayIter;
               HotkeySelect (drag 1 2 [] 3 4)])
    as [Hquiet _].
  { reflexivity. }
  { intros Hin. repeat (apply elem_of_cons in Hin as [Hin|Hin]; [done|]).
    by apply elem_of_nil in Hin. }
  destruct Hquiet as (_ & _ & Hcap & _ & Hbuffs).
  { intros [|i] m; [done|]. simpl. by rewrite lookup_nil. }
  split; [exact Hcap|]. split; [exact Hbuffs|]. split; [reflexivity|].
  destruct (idle_is_quiet (constant_match 1 (1, 1)%Z) dump_region
              (step (constant_match 1 (1, 1)%Z) dump_region monitoring_world
                 HotkeyToggle) [])
    as [_ Hends]; [reflexivity | apply not_elem_of_nil |].
  destruct (Hends 0%nat (mkMonitor (300, 1000, 1100, 1050)%Z 0.82%Q)
              (Frame frame_3x4) 5%Q) as (Hexit & Hcap' & _); [reflexivity|].
  split; [exact Hexit | exact Hcap'].
Defined.

Lemma overlay_ends_with_pause_witness :
  stop_event (app paused_world) = true ∧
  overlay (run (constant_match 1 (1, 1)%Z) dump_region paused_world
             [OverlayIter; HotkeyToggle; MonitorIter 1 (Frame frame_3x4) 5;
              OverlayIter]) ≠ Drawing ∧
  overlay_labels
    (app (run (constant_match 1 (1, 1)%Z) dump_region paused_world
            [OverlayIter; HotkeyToggle; MonitorIter 1 (Frame frame_3x4) 5;
             OverlayIter])) = ∅.
Proof.
  split; [reflexivity|].
  apply (overlay_ends_with_pause (constant_match 1 (1, 1)%Z) dump_region
           paused_world
           [HotkeyToggle; MonitorIter 1 (Frame frame_3x4) 5; OverlayIter]).
  reflexivity.
Defined.

Lemma only_selection_writes_witness :
  (∀ gesture,
     HotkeySelect gesture ∉
       [HotkeyToggle; MonitorIter 0 (Frame frame_3x4) 5; OverlayIter;
        HotkeyToggle]) ∧
  disk (run (constant_match 1 (1, 1)%Z) dump_region sample_world
          [HotkeyToggle; MonitorIter 0 (Frame frame_3x4) 5; OverlayIter;
           HotkeyToggle]) = disk sample_world.
Proof.
  assert (∀ gesture,
            HotkeySelect gesture ∉
              [HotkeyToggle; MonitorIter 0 (Frame frame_3x4) 5; OverlayIter;
               HotkeyToggle]) as Hno.
  { intros gesture Hin.
    repeat (apply elem_of_cons in Hin as [Hin|Hin]; [done|]).
    by apply elem_of_nil in Hin. }
  split; [exact Hno|].
  apply (only_selection_writes (constant_match 1 (1, 1)%Z) dump_region
           sample_world
           [HotkeyToggle; MonitorIter 0 (Frame frame_3x4) 5; OverlayIter;
            HotkeyToggle]).
  exact Hno.
Defined.

Lemma selected_region_used_by_next_start_witness :
  running (app sample_world) = false ∧
  threads (run (constant_match 1 (1, 1)%Z) dump_region sample_world
             [HotkeySelect (drag 500 500 [(3, 4)%Z] 100 100); HotkeyToggle]) =
    [Looping (mkMonitor (100, 100, 500, 500)%Z 0.82%Q)].
Proof.
  split; [reflexivity|].
  apply (proj1 (selected_region_used_by_next_start (constant_match 1 (1, 1)%Z)
                  dump_region sample_world 500 500 100 100 [(3, 4)%Z])).
  reflexivity.
Defined.

Lemma overlay_shows_the_active_witness :
  (overlay_pass running_app).2 = None ∧
  is_Some (overlay_labels (overlay_pass running_app).1 !! "Shield") ∧
  ¬ is_Some (overlay_labels (overlay_pass running_app).1 !! "Haste").
Proof.
  split; [reflexivity|].
  destruct (overlay_shows_the_active running_app (overlay_pass running_app).1
              100 100) as [_ Hlabels]; [reflexivity | reflexivity |].
  split.
  - apply (proj1 (Hlabels "Shield")). exists shield_seen.
    split_and!; [|reflexivity..]. right. by left.
  - intros (b & Hin & Hvis & Hname)%(proj1 (Hlabels "Haste")).
    simpl in Hin.
    repeat (apply elem_of_cons in Hin as [->|Hin]; [done|]).
    by apply elem_of_nil in Hin.
Defined.

Lemma overlay_pass_is_stable_witness :
  overlay_pass running_app = ((overlay_pass running_app).1, None) ∧
  overlay_pass (overlay_pass running_app).1 =
    ((overlay_pass running_app).1, None).
Proof.
  split; [reflexivity|].
  apply (overlay_pass_is_stable running_app). reflexivity.
Defined.

Lemma picker_uses_last_press_first_release_witness :
  Forall keeps_open [ButtonPress 7 7; Motion 8 9] ∧
  pick_region_via_drag
    ([ButtonPress 7 7; Motion 8 9] ++
       ButtonPress 500 500 :: (uncurry Motion <$> [(300, 200)%Z]) ++
         ButtonRelease 100 100 :: [ButtonPress 1 1; Escape]) =
    Some (Some [100; 100; 500; 500]%Z).
Proof.
  assert (Forall keeps_open [ButtonPress 7 7; Motion 8 9]) as Hopen
    by (repeat constructor).
  split; [exact Hopen|].
  apply (picker_uses_last_press_first_release [ButtonPress 7 7; Motion 8 9]
           [ButtonPress 1 1; Escape] [(300, 200)%Z] 500 500 100 100 Hopen).
Defined.

Lemma picker_cancel_and_wait_witness :
  Forall keeps_open [ButtonPress 7 7; Motion 8 9] ∧
  pick_region_via_drag
    ([ButtonPress 7 7; Motion 8 9] ++ Escape :: [ButtonRelease 9 9]) =
    Some None ∧
  pick_region_via_drag [ButtonPress 7 7; Motion 8 9] = None.
Proof.
  assert (Forall keeps_open [ButtonPress 7 7; Motion 8 9]) as Hopen
    by (repeat constructor).
  split; [exact Hopen|].
  apply (picker_cancel_and_wait [ButtonPress 7 7; Motion 8 9]
           [ButtonRelease 9 9] Hopen).
Defined.

Lemma load_after_save_witness :
  dump_region DEFAULT_CONFIG = Dumped "default region" ∧
  decode_known "default region" = Some DEFAULT_CONFIG ∧
  load_config decode_known dump_region
    (save_config dump_region DEFAULT_CONFIG corrupt_disk).1 =
    ((save_config dump_region DEFAULT_CONFIG corrupt_disk).1,
     Ok DEFAULT_CONFIG).
Proof.
  split; [reflexivity|]. split; [reflexivity|].
  apply (proj1 (load_after_save decode_known dump_region DEFAULT_CONFIG
                  corrupt_disk) "default region");
    reflexivity.
Defined.

Lemma failed_save_breaks_next_start_witness :
  pick_region_via_drag (drag 1 2 [] 3 4) = Some (Some [1; 2; 3; 4]%Z) ∧
  dump_plain (set_search_region [1; 2; 3; 4]%Z (cfg running_app)) =
    DumpRaised "{ buffs: [" TypeError ∧
  decode_known "{ buffs: [" = None ∧
  ∃ a' d',
    on_select_region dump_plain (drag 1 2 [] 3 4) running_app sample_disk =
      Some (a', d', Some TypeError) ∧
    search_region (cfg a') = Some [1; 2; 3; 4]%Z ∧
    config_json d' = Some "{ buffs: [" ∧
    startup decode_known dump_plain d' = Raise JSONDecodeError.
Proof.
  split; [reflexivity|]. split; [reflexivity|]. split; [reflexivity|].
  apply (failed_save_breaks_next_start decode_known dump_plain
           (drag 1 2 [] 3 4) running_app sample_disk [1; 2; 3; 4]%Z
           "{ buffs: [" TypeError);
    reflexivity.
Defined.

Lemma no_thread_dies_of_missing_key_witness :
  (∃ w, startup decode_known dump_region sample_disk = Ok w ∧
        ∀ tid,
          threads (run (constant_match 1 (1, 1)%Z) dump_region w
                     [HotkeyToggle; MonitorIter 0 (Frame frame_3x4) 5]) !! tid ≠
            Some (Crashed (KeyError "t_h"))).
Proof.
  destruct (startup decode_known dump_region sample_disk) as [w|e] eqn:Hstart;
    [|discriminate].
  exists w. split; [reflexivity|].
  apply (no_thread_dies_of_missing_key (constant_match 1 (1, 1)%Z)
           decode_known dump_region sample_disk w
           [HotkeyToggle; MonitorIter 0 (Frame frame_3x4) 5] "t_h" Hstart).
  intros tid now Hin.
  repeat (apply elem_of_cons in Hin as [Hin|Hin]; [done|]).
  by apply elem_of_nil in Hin.
Defined.

Lemma detected_templates_are_shown_witness :
  threads monitoring_world !! 0%nat =
    Some (Looping (mkMonitor (300, 1000, 1100, 1050)%Z 0.82%Q)) ∧
  map_to_list
    (overlay_labels
       (app (run (constant_match 1 (1, 1)%Z) dump_region monitoring_world
               [MonitorIter 0 (Frame frame_3x4) 5; OverlayIter]))) =
    [("Shield", mkLabel (map (map swap_channels) icon_shield) 170 100)] ∧
  ∀ n : string,
    is_Some
      (overlay_labels
         (app (run (constant_match 1 (1, 1)%Z) dump_region monitoring_world
                 [MonitorIter 0 (Frame frame_3x4) 5; OverlayIter])) !! n) ↔
    ∃ b tmpl max_val loc,
      b ∈ get_buffs (cfg (app monitoring_world)) ∧ name b = n ∧
      template b = Some (Some tmpl) ∧
      constant_match 1 (1, 1)%Z frame_3x4 tmpl = Some (max_val, loc) ∧
      Qle_bool 0.82 max_val = true.
Proof.
  split; [reflexivity|]. split; [reflexivity|].
  apply (detected_templates_are_shown (constant_match 1 (1, 1)%Z) dump_region
           monitoring_world 0
           (mkMonitor (300, 1000, 1100, 1050)%Z 0.82%Q) frame_3x4 5);
    reflexivity.
Defined.
